(** * nothing.js: default "nothing" values and object utilities

    A shallow embedding of [src/nothing.js] and the properties its
    specification states about it.

    JavaScript values are modelled with an explicit heap: objects and
    arrays are heap cells addressed by location, so that aliasing (two
    references to one object) and in-place mutation are visible.  The
    recursive utilities take a [fuel] argument that bounds the nesting of
    recursive calls (the JavaScript call stack); running out of it is the
    outcome [OutOfFuel].

    Modelling boundary.  Objects are plain extensible objects with
    enumerable, writable data properties, created either by a literal
    (prototype [Object.prototype]) or by [Object.create(null)].  Own
    properties are kept in insertion order, which is the order [for..in]
    visits string keys (integer-like keys, which JavaScript visits first
    and in ascending order, are not told apart).  Numbers are the integers
    and [NaN].  The [__proto__] accessor of [Object.prototype] is not
    modelled: statements about reads and writes on objects that inherit
    from [Object.prototype] exclude that key.  Frozen or sealed objects and
    read-only or non-configurable properties, on which a strict-mode write
    or [delete] raises, are not modelled either. *)

From Stdlib Require Import ZArith String List Bool Lia.
From stdpp Require Import base list.
Import ListNotations.

Local Open Scope string_scope.

(** ** Values *)

Definition loc := nat.

Inductive number :=
| NaN
| Fin (z : Z).

Inductive func :=
| FNothing                 (* the arrow function stored at NOTHING["function"] *)
| FBuiltin (name : string) (* a method inherited from Object.prototype *)
| FUser (id : nat).        (* any other function *)

Inductive value :=
| VUndefined
| VNull
| VBool (b : bool)
| VNum (n : number)
| VStr (s : string)
| VFun (f : func)
| VRef (l : loc).

Inductive proto := ProtoNull | ProtoObject.

Inductive obj :=
| OArray (elems : list value)
| OObject (p : proto) (props : list (string * value)).

Abbreviation heap := (list obj).

Definition number_eqb (a b : number) : bool :=
  match a, b with
  | Fin x, Fin y => (x =? y)%Z
  | _, _ => false (* NaN equals nothing, itself included *)
  end.

Definition func_eqb (f g : func) : bool :=
  match f, g with
  | FNothing, FNothing => true
  | FBuiltin a, FBuiltin b => String.eqb a b
  | FUser a, FUser b => Nat.eqb a b
  | _, _ => false
  end.

(** [a === b] *)
Definition strict_eq (a b : value) : bool :=
  match a, b with
  | VUndefined, VUndefined => true
  | VNull, VNull => true
  | VBool x, VBool y => Bool.eqb x y
  | VNum x, VNum y => number_eqb x y
  | VStr x, VStr y => String.eqb x y
  | VFun x, VFun y => func_eqb x y
  | VRef x, VRef y => Nat.eqb x y
  | _, _ => false
  end.

(** [typeof v] *)
Definition typeof (v : value) : string :=
  match v with
  | VUndefined => "undefined"
  | VNull => "object"
  | VBool _ => "boolean"
  | VNum _ => "number"
  | VStr _ => "string"
  | VFun _ => "function"
  | VRef _ => "object"
  end.

(** ToBoolean, as used by [||] *)
Definition truthy (v : value) : bool :=
  match v with
  | VUndefined | VNull => false
  | VBool b => b
  | VNum NaN => false
  | VNum (Fin z) => negb (z =? 0)%Z
  | VStr s => negb (String.eqb s "")
  | VFun _ | VRef _ => true
  end.

(** [a || b] for operands without side effects *)
Definition js_or (a b : value) : value := if truthy a then a else b.

(** ** Property lists *)

Fixpoint assoc (k : string) (ps : list (string * value)) : option value :=
  match ps with
  | [] => None
  | (k', v) :: ps' => if String.eqb k k' then Some v else assoc k ps'
  end.

Fixpoint assoc_set (k : string) (v : value) (ps : list (string * value))
  : list (string * value) :=
  match ps with
  | [] => [(k, v)]
  | (k', v') :: ps' =>
      if String.eqb k k' then (k', v) :: ps' else (k', v') :: assoc_set k v ps'
  end.

Fixpoint assoc_del (k : string) (ps : list (string * value))
  : list (string * value) :=
  match ps with
  | [] => []
  | (k', v') :: ps' =>
      if String.eqb k k' then assoc_del k ps' else (k', v') :: assoc_del k ps'
  end.

(** The methods every ordinary object inherits from [Object.prototype]. *)
Definition Object_prototype_names : list string :=
  [ "constructor"; "hasOwnProperty"; "isPrototypeOf"; "propertyIsEnumerable";
    "toLocaleString"; "toString"; "valueOf";
    "__defineGetter__"; "__defineSetter__"; "__lookupGetter__"; "__lookupSetter__" ].

Definition Object_prototype_get (k : string) : value :=
  if existsb (String.eqb k) Object_prototype_names
  then VFun (FBuiltin k) else VUndefined.

(** [o[k]] on the property list of an object with prototype [p] *)
Definition props_get (p : proto) (ps : list (string * value)) (k : string) : value :=
  match assoc k ps with
  | Some v => v
  | None => match p with
            | ProtoNull => VUndefined
            | ProtoObject => Object_prototype_get k
            end
  end.

(** ** Heap operations *)

(** [Array.isArray(v)] *)
Definition isArray (h : heap) (v : value) : bool :=
  match v with
  | VRef l => match h !! l with Some (OArray _) => true | _ => false end
  | _ => false
  end.

(** [v.length] for an array reference [v] *)
Definition array_length (h : heap) (v : value) : nat :=
  match v with
  | VRef l => match h !! l with Some (OArray elems) => List.length elems | _ => 0 end
  | _ => 0
  end.

(** The own enumerable properties of an object (none for anything else). *)
Definition own_props (h : heap) (v : value) : list (string * value) :=
  match v with
  | VRef l => match h !! l with Some (OObject _ ps) => ps | _ => [] end
  | _ => []
  end.

(** [Object.keys(v)], also the keys a [for (key in v)] loop will visit *)
Definition own_keys (h : heap) (v : value) : list string :=
  map fst (own_props h v).

(** [Object.prototype.hasOwnProperty.call(v, k)] *)
Definition has_own (h : heap) (v : value) (k : string) : bool :=
  match assoc k (own_props h v) with Some _ => true | None => false end.

(** [v[k]] for an object reference [v]; on an object that inherits from
    [Object.prototype], for a key other than [__proto__] *)
Definition get_prop (h : heap) (v : value) (k : string) : value :=
  match v with
  | VRef l => match h !! l with
              | Some (OObject p ps) => props_get p ps k
              | _ => VUndefined
              end
  | _ => VUndefined
  end.

(** [target[k] = v] for an object reference [target] that is extensible and
    not frozen; on an object that inherits from [Object.prototype], for a
    key other than [__proto__] (there the assignment goes to the inherited
    setter) *)
Definition set_prop (h : heap) (target : value) (k : string) (v : value) : heap :=
  match target with
  | VRef l => match h !! l with
              | Some (OObject p ps) => <[l := OObject p (assoc_set k v ps)]> h
              | _ => h
              end
  | _ => h
  end.

(** [delete target[k]] for a configurable property of an object that is not
    frozen or sealed *)
Definition delete_prop (h : heap) (target : value) (k : string) : heap :=
  match target with
  | VRef l => match h !! l with
              | Some (OObject p ps) => <[l := OObject p (assoc_del k ps)]> h
              | _ => h
              end
  | _ => h
  end.

(** Allocation of a new cell; [{}] is [alloc h (OObject ProtoObject [])]. *)
Definition alloc (h : heap) (o : obj) : value * heap :=
  (VRef (List.length h), (h ++ [o])%list).

(** ** The imported module [typec] *)

(** Modelled from the spec: [typec.is_null] is not part of the sources; the
    specification calls a value it accepts an absence-marker, which "covers
    null, undefined, and not-a-number float values". *)
Definition is_null (v : value) : bool :=
  match v with
  | VUndefined | VNull | VNum NaN => true
  | _ => false
  end.

(** Modelled from the spec: [typec.type_check] is not part of the sources.
    With the tag "object" the specification reads it as "is a keyed
    container", the object-like type that ordered sequences (arrays) are
    "treated distinctly from" and that the absence-markers are not; with the
    tag "string" it reads it as "is a string".  Other tags compare with
    [typeof]. *)
Definition type_check (h : heap) (v : value) (ty : string) : bool :=
  if String.eqb ty "object" then
    match v with
    | VRef l => match h !! l with Some (OObject _ _) => true | _ => false end
    | _ => false
    end
  else String.eqb (typeof v) ty.

(** ** The table of defaults *)

(** The two containers the table holds are allocated when the module is
    loaded: [Object.create(null)] and [Array.from([])]. *)
Definition loc_object : loc := 0%nat.
Definition loc_array : loc := 1%nat.

Definition init_heap : heap := [OObject ProtoNull []; OArray []].

(** The own properties of the frozen object [NOTHING]. *)
Definition NOTHING : list (string * value) :=
  [ ("object", VRef loc_object);
    ("string", VStr "");
    ("number", VNum (Fin 0));
    ("boolean", VBool false);
    ("array", VRef loc_array);
    ("function", VFun FNothing);
    ("null", VNull);
    ("undefined", VUndefined) ].

(** [NOTHING[k]]: [NOTHING] is written as a literal, so a key it does not
    own is looked up on [Object.prototype]. *)
Definition NOTHING_get (k : string) : value := props_get ProtoObject NOTHING k.

Definition by_type (type : string) : value :=
  js_or (NOTHING_get type) (NOTHING_get "undefined").

Definition by_value (v : value) : value := by_type (typeof v).

Definition is_default (h : heap) (v : value) : bool :=
  let valueType := typeof v in
  if is_null v then true
  else if isArray h v then Nat.eqb (array_length h v) 0
  else if String.eqb valueType "object" then
    Nat.eqb (List.length (own_keys h v)) 0
  else strict_eq v (by_value v).

Definition set_default (h : heap) (v default_value : value) : value :=
  if negb (is_default h v) then v else default_value.

Definition normalize (v : value) : value :=
  if is_null v then by_type "null" else v.

Definition do_nothing : value := by_type "function".

Definition object : value := by_type "object".

(** ** Outcomes of the operations that touch the heap *)

Inductive error := TypeError (msg : string).

Inductive outcome (A : Type) :=
| Ok (a : A) (h : heap)        (* normal completion *)
| Throw (e : error) (h : heap) (* an exception, and the heap it leaves *)
| OutOfFuel.                   (* recursion deeper than the fuel *)

Arguments Ok {A} a h.
Arguments Throw {A} e h.
Arguments OutOfFuel {A}.

Definition bind {A B} (m : outcome A) (k : A -> heap -> outcome B) : outcome B :=
  match m with
  | Ok a h => k a h
  | Throw e h => Throw e h
  | OutOfFuel => OutOfFuel
  end.

Notation "'let*' x ':=' m 'in' k" := (bind m (fun x => k))
  (at level 10, x name, m at level 100, k at level 200).

(** A loop over a list of keys fixed when the loop starts. *)
Fixpoint for_each {K} (keys : list K) (body : K -> heap -> outcome unit)
  (h : heap) : outcome unit :=
  match keys with
  | [] => Ok tt h
  | k :: ks => let* _ := body k h in for_each ks body
  end.

(** [deep <= 0 && deep !== -1] *)
Definition depth_reached (deep : Z) : bool :=
  ((deep <=? 0) && negb (deep =? -1))%Z.

(** [deep === -1 ? -1 : deep - 1] *)
Definition depth_below (deep : Z) : Z :=
  if (deep =? -1)%Z then (-1)%Z else (deep - 1)%Z.

(** ** Object utilities *)

Definition from_object_prop (source result prop : value) (h : heap) : outcome unit :=
  if negb (type_check h prop "string") then
    Throw (TypeError ("Property name must be a string, but got " ++ typeof prop)) h
  else
    match prop with
    | VStr k =>
        if has_own h source k
        then Ok tt (set_prop h result k (get_prop h source k))
        else Ok tt h
    | _ => Ok tt h
    end.

Definition from_object (source : value) (properties : list value) (h : heap)
  : outcome value :=
  if negb (type_check h source "object") then
    Throw (TypeError "Source must be an object.") h
  else
    let result := object in
    let* _ := for_each properties (from_object_prop source result) h in
    Ok result.

Definition purification_key (rec : value -> Z -> heap -> outcome value)
  (source result : value) (deep : Z) (key : string) (h : heap) : outcome unit :=
  if has_own h source key then
    if is_default h (get_prop h source key) then Ok tt h
    else if type_check h (get_prop h source key) "object" then
      let* r := rec (get_prop h source key) (depth_below deep) h in
      fun h' => Ok tt (set_prop h' result key r)
    else Ok tt (set_prop h result key (get_prop h source key))
  else Ok tt h.

Fixpoint purification (fuel : nat) (source : value) (deep : Z) (h : heap)
  : outcome value :=
  if depth_reached deep then Ok source h
  else if negb (type_check h source "object") then
    Throw (TypeError "Source must be an object.") h
  else
    let result := object in
    let rec := match fuel with
               | O => fun _ _ _ => OutOfFuel
               | S fuel' => purification fuel'
               end in
    let* _ := for_each (own_keys h source) (purification_key rec source result deep) h in
    Ok result.

Definition shallow_merge_key (target source : value) (key : string) (h : heap)
  : outcome unit :=
  if has_own h source key
  then Ok tt (set_prop h target key (get_prop h source key))
  else Ok tt h.

Definition shallow_merge (target source : value) (h : heap) : outcome value :=
  if negb (type_check h target "object" && type_check h source "object") then
    Throw (TypeError "Both target and source must be objects.") h
  else
    let* _ := for_each (own_keys h source) (shallow_merge_key target source) h in
    Ok target.

Definition deep_merge_key (rec : value -> value -> Z -> heap -> outcome value)
  (target source : value) (deep : Z) (key : string) (h : heap) : outcome unit :=
  if has_own h source key then
    if type_check h (get_prop h source key) "object"
       && negb (isArray h (get_prop h source key)) then
      (* target[key] || {} : the literal is allocated only when it is needed *)
      let '(into, h1) :=
        if truthy (get_prop h target key) then (get_prop h target key, h)
        else alloc h (OObject ProtoObject []) in
      let* r := rec into (get_prop h1 source key) (depth_below deep) h1 in
      fun h' => Ok tt (set_prop h' target key r)
    else Ok tt (set_prop h target key (get_prop h source key))
  else Ok tt h.

Fixpoint deep_merge (fuel : nat) (target source : value) (deep : Z) (h : heap)
  : outcome value :=
  if depth_reached deep then Ok target h
  else if negb (type_check h target "object" && type_check h source "object") then
    Throw (TypeError "Both target and source must be objects.") h
  else
    let rec := match fuel with
               | O => fun _ _ _ _ => OutOfFuel
               | S fuel' => deep_merge fuel'
               end in
    let* _ := for_each (own_keys h source) (deep_merge_key rec target source deep) h in
    Ok target.

Definition cut_default_key (rec : value -> Z -> heap -> outcome value)
  (source : value) (deep : Z) (key : string) (h : heap) : outcome unit :=
  if has_own h source key then
    if is_default h (get_prop h source key) then Ok tt (delete_prop h source key)
    else if type_check h (get_prop h source key) "object" then
      let* _ := rec (get_prop h source key) (depth_below deep) h in
      Ok tt
    else Ok tt h
  else Ok tt h.

Fixpoint cut_default (fuel : nat) (source : value) (deep : Z) (h : heap)
  : outcome value :=
  if negb (type_check h source "object") then
    Throw (TypeError "Source must be an object.") h
  else if depth_reached deep then Ok VUndefined h
  else
    let rec := match fuel with
               | O => fun _ _ _ => OutOfFuel
               | S fuel' => cut_default fuel'
               end in
    let* _ := for_each (own_keys h source) (cut_default_key rec source deep) h in
    Ok VUndefined.

(** The closed set of type tags of the specification. *)
Definition TypeTags : list string :=
  [ "object"; "string"; "number"; "boolean"; "array"; "function"; "null";
    "undefined" ].

(** The two containers of the table are as they were when the module was
    loaded. *)
Definition table_intact (h : heap) : Prop :=
  h !! loc_object = Some (OObject ProtoNull []) /\ h !! loc_array = Some (OArray []).

(** ** Examples used below *)

(** [{a:"", b:null, c:42, nested:{d:0, e:5}}] at location 2, after the
    module was loaded. *)
Definition heap_spec_example : heap :=
  (init_heap ++
   [ OObject ProtoObject
       [("a", VStr ""); ("b", VNull); ("c", VNum (Fin 42)); ("nested", VRef 3)];
     OObject ProtoObject [("d", VNum (Fin 0)); ("e", VNum (Fin 5))] ])%list.

(** [{c:42, nested:{e:5}}] at location 2: no default value anywhere. *)
Definition heap_nested_only : heap :=
  (init_heap ++
   [ OObject ProtoObject [("c", VNum (Fin 42)); ("nested", VRef 3)];
     OObject ProtoObject [("e", VNum (Fin 5))] ])%list.

(** [[]], [[1]], [{}] and [{a:1}] at locations 2 to 5. *)
Definition heap_containers : heap :=
  (init_heap ++
   [ OArray []; OArray [VNum (Fin 1)];
     OObject ProtoObject []; OObject ProtoObject [("a", VNum (Fin 1))] ])%list.

(** [{a:1}] at location 2 and [{b:2}] at location 3. *)
Definition heap_two_sources : heap :=
  (init_heap ++
   [ OObject ProtoObject [("a", VNum (Fin 1))];
     OObject ProtoObject [("b", VNum (Fin 2))] ])%list.

(** [{a:"s"}] at location 2 and [{z:1, a:{b:1}}] at location 3 (the inner
    object at location 4). *)
Definition heap_merge_clash : heap :=
  (init_heap ++
   [ OObject ProtoObject [("a", VStr "s")];
     OObject ProtoObject [("z", VNum (Fin 1)); ("a", VRef 4)];
     OObject ProtoObject [("b", VNum (Fin 1))] ])%list.

(** [{}] at location 2 and [{a:1}] at location 3. *)
Definition heap_small_merge : heap :=
  (init_heap ++
   [ OObject ProtoObject [];
     OObject ProtoObject [("a", VNum (Fin 1))] ])%list.

(** [{a: v}] at location 2 and [{a: {b: 1}}] at location 3 (the inner object
    at location 4). *)
Definition heap_slot (v : value) : heap :=
  (init_heap ++
   [ OObject ProtoObject [("a", v)];
     OObject ProtoObject [("a", VRef 4)];
     OObject ProtoObject [("b", VNum (Fin 1))] ])%list.

(** ** Calls *)

(** How an operation of the module is entered. *)
Inductive call :=
| Call_from_object (source : value) (properties : list value)
| Call_purification (source : value) (deep : Z)
| Call_shallow_merge (target source : value)
| Call_deep_merge (target source : value) (deep : Z)
| Call_cut_default (source : value) (deep : Z).

Definition run (fuel : nat) (c : call) (h : heap) : outcome value :=
  match c with
  | Call_from_object source properties => from_object source properties h
  | Call_purification source deep => purification fuel source deep h
  | Call_shallow_merge target source => shallow_merge target source h
  | Call_deep_merge target source deep => deep_merge fuel target source deep h
  | Call_cut_default source deep => cut_default fuel source deep h
  end.


(** ** Predicates used in the statements *)

(** An outcome that is not an exception. *)
Definition quiet {A} (m : outcome A) : Prop :=
  match m with Throw _ _ => False | _ => True end.

(** A recursive call that is only ever made on keyed containers. *)
Definition quiet_on_objects (rec : value -> Z -> heap -> outcome value) : Prop :=
  forall v d h, type_check h v "object" = true -> quiet (rec v d h).

(** Every object cell of [h] is still an object cell of [h'], with the same
    prototype: the operations change property lists and add cells, never
    more. *)
Definition cells_kept (h h' : heap) : Prop :=
  forall l p ps, h !! l = Some (OObject p ps) ->
                 exists ps', h' !! l = Some (OObject p ps').

(** A recursive merge that returns its target and keeps the cells. *)
Definition merge_like (rec : value -> value -> Z -> heap -> outcome value) : Prop :=
  forall t s d h r h', rec t s d h = Ok r h' -> r = t /\ cells_kept h h'.

(** A value that the merge assigns rather than descends into: anything
    but a reference to an object cell (dangling references excluded). *)
Definition plain_value (h : heap) (v : value) : Prop :=
  match v with
  | VRef l => exists elems, h !! l = Some (OArray elems)
  | _ => True
  end.

(** ** Further definitions used in the statements *)

(** The depth argument of a call, for the operations that have one. *)
Definition call_depth (c : call) : option Z :=
  match c with
  | Call_purification _ deep | Call_deep_merge _ _ deep | Call_cut_default _ deep =>
      Some deep
  | Call_from_object _ _ | Call_shallow_merge _ _ => None
  end.

(** An outcome other than [OutOfFuel]. *)
Definition finished {A} (m : outcome A) : Prop :=
  match m with OutOfFuel => False | _ => True end.

(** [o = {self: o, n: {back: o}}] at location 2: a cyclic object graph. *)
Definition heap_cycle : heap :=
  (init_heap ++
   [ OObject ProtoObject [("self", VRef 2); ("n", VRef 3)];
     OObject ProtoObject [("back", VRef 2)] ])%list.

(** A string, a boolean or a number other than [NaN]. *)
Definition is_primitive (v : value) : bool :=
  match v with
  | VStr _ | VBool _ | VNum (Fin _) => true
  | _ => false
  end.


(** No cell was added, and no cell but the shared container [object] has
    changed. *)
Definition only_object_written (h h' : heap) : Prop :=
  List.length h' = List.length h /\
  forall l, l <> loc_object -> h' !! l = h !! l.

(** No own property of [v] holds a value that [deep_merge] would descend
    into. *)
Definition merge_flat (h : heap) (v : value) : Prop :=
  Forall (fun kv => type_check h (snd kv) "object"
                    && negb (isArray h (snd kv)) = false) (own_props h v).

(** No own property of [v] holds a value that [purification] and
    [cut_default] would descend into. *)
Definition flat (h : heap) (v : value) : Prop :=
  Forall (fun kv => type_check h (snd kv) "object" = false) (own_props h v).

(** The properties that are not defaults, in their order. *)
Definition without_defaults (h : heap) (ps : list (string * value))
  : list (string * value) :=
  List.filter (fun kv => negb (is_default h (snd kv))) ps.

(** [{a: null, nested: {b: null}}] at location 2. *)
Definition heap_depth_example : heap :=
  (init_heap ++
   [ OObject ProtoObject [("a", VNull); ("nested", VRef 3)];
     OObject ProtoObject [("b", VNull)] ])%list.

(** [{arr: [1]}] at location 2 and [{arr: [4, 5], n: 0}] at location 4. *)
Definition heap_arrays : heap :=
  (init_heap ++
   [ OObject ProtoObject [("arr", VRef 3)];
     OArray [VNum (Fin 1)];
     OObject ProtoObject [("arr", VRef 5); ("n", VNum (Fin 0))];
     OArray [VNum (Fin 4); VNum (Fin 5)] ])%list.

(** ** Definitions for the entry checks and the depth *)



(** No object of the heap owns a property named [__proto__]. *)
Definition owns_no_proto (h : heap) : bool :=
  forallb (fun o => match o with
                    | OObject _ ps => match assoc "__proto__" ps with
                                      | Some _ => false
                                      | None => true
                                      end
                    | OArray _ => true
                    end) h.






(** * Properties *)

(** ** The table and the predicate *)

Lemma by_type_object : by_type "object" = VRef loc_object.
Proof. reflexivity. Qed.

Lemma by_type_array : by_type "array" = VRef loc_array.
Proof. reflexivity. Qed.

Lemma by_type_function : by_type "function" = VFun FNothing.
Proof. reflexivity. Qed.

(** On a value that is neither an absence-marker nor a container reference,
    [is_default] is the strict comparison with [by_value]. *)
Lemma is_default_scalar h v :
  is_null v = false -> typeof v <> "object" ->
  is_default h v = strict_eq v (by_value v).
Proof.
  intros Hn Ht. unfold is_default. rewrite Hn.
  destruct v; simpl in *; try reflexivity; congruence.
Qed.

(** C2: [by_type] does not return the table's entry for the tags "string",
    "number", "boolean" and "null": their entries are falsy, so the [||]
    falls through to the entry of "undefined".  A name inherited from
    [Object.prototype] is not a tag, yet is not answered with undefined. *)
Theorem by_type_falsy_entries :
  assoc "string" NOTHING = Some (VStr "") /\ by_type "string" = VUndefined /\
  assoc "number" NOTHING = Some (VNum (Fin 0)) /\ by_type "number" = VUndefined /\
  assoc "boolean" NOTHING = Some (VBool false) /\ by_type "boolean" = VUndefined /\
  assoc "null" NOTHING = Some VNull /\ by_type "null" = VUndefined /\
  by_type "toString" = VFun (FBuiltin "toString").
Proof. repeat split. Qed.

(** C1: [is_default] answers false for the empty string, zero and false,
    in every heap: [by_value] gives undefined for them, and none of them
    strictly equals undefined. *)
Theorem is_default_falsy_scalars h :
  is_default h (VStr "") = false /\
  is_default h (VNum (Fin 0)) = false /\
  is_default h (VBool false) = false.
Proof. repeat split. Qed.

(** The other values of the specification's list are answered as it says. *)
Lemma is_default_other_examples :
  map (is_default heap_containers) [VRef 2; VRef 4; VNull; VUndefined] = [true; true; true; true] /\
  map (is_default heap_containers)
    [VRef 3; VRef 5; VStr "x"; VNum (Fin 1); VBool true]
  = [false; false; false; false; false].
Proof. split; reflexivity. Qed.

(** As long as the table's two containers are as they were built,
    [is_default (by_type t)] is true for every type tag [t]. *)
Lemma is_default_by_type h t :
  In t TypeTags -> table_intact h -> is_default h (by_type t) = true.
Proof.
  intros Ht [Ho Ha]. unfold TypeTags in Ht. simpl in Ht.
  destruct Ht as [<-|[<-|[<-|[<-|[<-|[<-|[<-|[<-|[]]]]]]]]]; try reflexivity.
  - rewrite by_type_object. unfold is_default, isArray, own_keys, own_props.
    simpl. rewrite Ho. reflexivity.
  - rewrite by_type_array. unfold is_default, isArray, array_length.
    simpl. rewrite Ha. reflexivity.
Qed.

(** C4: [is_default (by_type "object")] is false once a call of
    [from_object] has copied a property: the call writes into the table's
    own container for "object", which is then no longer empty. *)
Theorem is_default_by_type_needs_intact_table :
  exists h', from_object (VRef 2) [VStr "a"] heap_two_sources = Ok (by_type "object") h' /\
             is_default h' (by_type "object") = false.
Proof. eexists. split; reflexivity. Qed.

Lemma is_default_by_type_witness :
  In "object" TypeTags /\ table_intact init_heap /\
  is_default init_heap (by_type "object") = true.
Proof.
  assert (Ht : In "object" TypeTags) by (left; reflexivity).
  assert (Hi : table_intact init_heap) by (split; reflexivity).
  exact (conj Ht (conj Hi (is_default_by_type init_heap "object" Ht Hi))).
Defined.

(** C7: [normalize] answers an absence-marker with [by_type("null")], which
    is undefined and not the table's null; other values come back
    unchanged. *)
Theorem normalize_gives_undefined :
  normalize VNull = VUndefined /\
  normalize VUndefined = VUndefined /\
  normalize (VNum NaN) = VUndefined /\
  strict_eq (normalize VNull) VNull = false /\
  normalize (VStr "x") = VStr "x".
Proof. repeat split. Qed.

Lemma normalize_other v : is_null v = false -> normalize v = v.
Proof. intros H. unfold normalize. rewrite H. reflexivity. Qed.

(** ** Depth budget and order of the entry checks *)


Lemma purification_depth_reached fuel source deep h :
  depth_reached deep = true -> purification fuel source deep h = Ok source h.
Proof. intros H. destruct fuel; simpl; rewrite H; reflexivity. Qed.

Lemma deep_merge_depth_reached fuel target source deep h :
  depth_reached deep = true -> deep_merge fuel target source deep h = Ok target h.
Proof. intros H. destruct fuel; simpl; rewrite H; reflexivity. Qed.

Lemma cut_default_not_object fuel source deep h :
  type_check h source "object" = false ->
  cut_default fuel source deep h = Throw (TypeError "Source must be an object.") h.
Proof. intros H. destruct fuel; simpl; rewrite H; reflexivity. Qed.

(** C10: [cut_default] checks its argument before the depth, so at depth 0 a
    value that is not a keyed container raises TypeError (and leaves the
    heap as it was); [purification] checks the depth first, so at depth 0
    any value at all is returned unchanged. *)
Theorem depth_zero_check_order fuel h x y :
  type_check h x "object" = false ->
  cut_default fuel x 0 h = Throw (TypeError "Source must be an object.") h /\
  purification fuel y 0 h = Ok y h.
Proof.
  intros Hx. split.
  - now apply cut_default_not_object.
  - now apply purification_depth_reached.
Qed.

Lemma depth_zero_check_order_witness :
  type_check init_heap (VNum (Fin 5)) "object" = false /\
  cut_default 3 (VNum (Fin 5)) 0 init_heap
    = Throw (TypeError "Source must be an object.") init_heap /\
  purification 3 (VStr "x") 0 init_heap = Ok (VStr "x") init_heap.
Proof.
  split; [reflexivity|].
  apply (depth_zero_check_order 3 init_heap (VNum (Fin 5)) (VStr "x")).
  reflexivity.
Defined.


(** ** The shared result container *)

(** C3: on the specification's example, [purification] returns the module's
    shared container [object]; the nested call has written into that same
    container, and [nested] refers back to it.  The empty string and the
    zero are kept, since [is_default] does not accept them. *)
Theorem purification_spec_example :
  purification 1 (VRef 2) (-1) heap_spec_example
  = Ok (VRef loc_object)
      (<[loc_object :=
           OObject ProtoNull
             [("a", VStr ""); ("c", VNum (Fin 42)); ("d", VNum (Fin 0));
              ("e", VNum (Fin 5)); ("nested", VRef loc_object)]]>
         heap_spec_example).
Proof. reflexivity. Qed.

(** The sharing alone, on a source without any default value: the nested
    property [e] lands in the outer result, and [nested] is a cycle. *)
Lemma purification_nested_shares_result :
  purification 1 (VRef 2) (-1) heap_nested_only
  = Ok (VRef loc_object)
      (<[loc_object :=
           OObject ProtoNull
             [("c", VNum (Fin 42)); ("e", VNum (Fin 5));
              ("nested", VRef loc_object)]]>
         heap_nested_only).
Proof. reflexivity. Qed.

Lemma for_each_length {K} (keys : list K) body :
  (forall k h h', body k h = Ok tt h' -> List.length h' = List.length h) ->
  forall h h', for_each keys body h = Ok tt h' -> List.length h' = List.length h.
Proof.
  intros Hb. induction keys as [|k ks IH]; intros h h' H; simpl in H.
  - now inversion H.
  - destruct (body k h) as [[] h1| |] eqn:E; simpl in H; try discriminate.
    rewrite (IH _ _ H). eauto.
Qed.

Lemma set_prop_length h target k v :
  List.length (set_prop h target k v) = List.length h.
Proof.
  unfold set_prop. destruct target; try reflexivity.
  destruct (h !! l) as [[|p ps]|]; try reflexivity. apply length_insert.
Qed.

(** Whatever the arguments, the container [from_object] returns is [object],
    and no cell was allocated for it. *)
Lemma from_object_returns_object source properties h r h' :
  from_object source properties h = Ok r h' ->
  r = VRef loc_object /\ List.length h' = List.length h.
Proof.
  unfold from_object.
  destruct (negb (type_check h source "object")); [discriminate|].
  destruct (for_each properties _ h) as [[] h1| |] eqn:E; simpl;
    intros H; inversion H; subst.
  split; [reflexivity|].
  apply (for_each_length _ _) in E; [exact E|].
  intros prop h0 h0'. unfold from_object_prop.
  destruct (negb (type_check h0 prop "string")); [discriminate|].
  destruct prop; try (intros X; now inversion X).
  destruct (has_own h0 source s); intros X; injection X as <-;
    [exact (set_prop_length h0 object s (get_prop h0 source s)) | reflexivity].
Qed.

(** C5: [from_object] returns the module's shared container [object], not a
    new one: the property copied by one call is still there in the result
    of the next. *)
Theorem from_object_result_is_shared :
  let h1 := <[loc_object := OObject ProtoNull [("a", VNum (Fin 1))]]>
              heap_two_sources in
  let h2 := <[loc_object :=
                OObject ProtoNull [("a", VNum (Fin 1)); ("b", VNum (Fin 2))]]>
              heap_two_sources in
  from_object (VRef 2) [VStr "a"] heap_two_sources = Ok (VRef loc_object) h1 /\
  from_object (VRef 3) [VStr "b"] h1 = Ok (VRef loc_object) h2 /\
  own_props h2 (VRef loc_object) = [("a", VNum (Fin 1)); ("b", VNum (Fin 2))].
Proof. repeat split. Qed.

(** ** Where a TypeError can come from *)


Lemma quiet_bind {A B} (m : outcome A) (k : A -> heap -> outcome B) :
  quiet m -> (forall a h, quiet (k a h)) -> quiet (bind m k).
Proof. destruct m; simpl; auto. Qed.

Lemma for_each_quiet {K} (keys : list K) body :
  (forall k h, quiet (body k h)) -> forall h, quiet (for_each keys body h).
Proof.
  intros Hb. induction keys as [|k ks IH]; intros h; simpl; [exact I|].
  apply quiet_bind; auto.
Qed.

Section KeySteps.

(** The loop bodies of [cut_default] and [purification], for a recursive
    call that raises nothing on a keyed container. *)
Variable rec : value -> Z -> heap -> outcome value.
Hypothesis Hrec : quiet_on_objects rec.

Lemma cut_default_key_quiet source deep key h :
  quiet (cut_default_key rec source deep key h).
Proof.
  unfold cut_default_key.
  destruct (has_own h source key); [|exact I].
  destruct (is_default h (get_prop h source key)); [exact I|].
  destruct (type_check h (get_prop h source key) "object") eqn:E; [|exact I].
  apply quiet_bind; [now apply Hrec | intros; exact I].
Qed.

Lemma purification_key_quiet source result deep key h :
  quiet (purification_key rec source result deep key h).
Proof.
  unfold purification_key.
  destruct (has_own h source key); [|exact I].
  destruct (is_default h (get_prop h source key)); [exact I|].
  destruct (type_check h (get_prop h source key) "object") eqn:E; [|exact I].
  apply quiet_bind; [now apply Hrec | intros; exact I].
Qed.

End KeySteps.

Lemma cut_default_quiet fuel : quiet_on_objects (cut_default fuel).
Proof.
  induction fuel as [|fuel IH]; intros v d h Hv; simpl; rewrite Hv; simpl;
    (destruct (depth_reached d); [exact I|]);
    (apply quiet_bind; [|intros; exact I]);
    apply for_each_quiet; intros k h0; apply cut_default_key_quiet.
  - intros ? ? ? ?. exact I.
  - exact IH.
Qed.

Lemma purification_quiet fuel : quiet_on_objects (purification fuel).
Proof.
  induction fuel as [|fuel IH]; intros v d h Hv; simpl; rewrite Hv; simpl;
    (destruct (depth_reached d); [exact I|]);
    (apply quiet_bind; [|intros; exact I]);
    apply for_each_quiet; intros k h0; apply purification_key_quiet.
  - intros ? ? ? ?. exact I.
  - exact IH.
Qed.

Lemma shallow_merge_key_quiet target source key h :
  quiet (shallow_merge_key target source key h).
Proof. unfold shallow_merge_key. destruct (has_own h source key); exact I. Qed.

Lemma cut_default_throw fuel source deep h e h' :
  cut_default fuel source deep h = Throw e h' ->
  type_check h source "object" = false /\ h' = h.
Proof.
  intros H. destruct (type_check h source "object") eqn:E.
  - pose proof (cut_default_quiet fuel source deep h E) as Q.
    rewrite H in Q. destruct Q.
  - rewrite (cut_default_not_object _ _ _ _ E) in H. now inversion H.
Qed.

Lemma purification_throw fuel source deep h e h' :
  purification fuel source deep h = Throw e h' ->
  type_check h source "object" = false /\ h' = h.
Proof.
  intros H. destruct (type_check h source "object") eqn:E.
  - pose proof (purification_quiet fuel source deep h E) as Q.
    rewrite H in Q. destruct Q.
  - split; [reflexivity|].
    destruct fuel; simpl in H; destruct (depth_reached deep);
      try discriminate; rewrite E in H; simpl in H; now inversion H.
Qed.

Lemma shallow_merge_throw target source h e h' :
  shallow_merge target source h = Throw e h' ->
  type_check h target "object" && type_check h source "object" = false /\ h' = h.
Proof.
  unfold shallow_merge. intros H.
  destruct (type_check h target "object" && type_check h source "object");
    simpl in H.
  - pose proof (for_each_quiet (own_keys h source)
                  (shallow_merge_key target source)
                  (shallow_merge_key_quiet target source) h) as Q.
    destruct (for_each (own_keys h source) (shallow_merge_key target source) h);
      simpl in *; try discriminate. destruct Q.
  - split; [reflexivity|]. now inversion H.
Qed.










(** ** Merging into a slot that holds a falsy value *)


Lemma cells_kept_refl h : cells_kept h h.
Proof. intros l p ps H. eauto. Qed.

Lemma cells_kept_trans h1 h2 h3 :
  cells_kept h1 h2 -> cells_kept h2 h3 -> cells_kept h1 h3.
Proof. intros H12 H23 l p ps H. destruct (H12 _ _ _ H) as [ps' H']. eauto. Qed.

Lemma cells_kept_insert (h : heap) l0 p0 ps0 ps1 :
  h !! l0 = Some (OObject p0 ps0) ->
  cells_kept h (<[l0 := OObject p0 ps1]> h).
Proof.
  intros H0 l p ps H. destruct (decide (l = l0)) as [->|Hne].
  - rewrite H0 in H. inversion H; subst. exists ps1.
    apply list_lookup_insert_eq. eapply lookup_lt_Some; eauto.
  - exists ps. rewrite list_lookup_insert_ne; auto.
Qed.

Lemma cells_kept_set_prop h target k v : cells_kept h (set_prop h target k v).
Proof.
  unfold set_prop. destruct target; try apply cells_kept_refl.
  destruct (h !! l) as [[|p ps]|] eqn:E; try apply cells_kept_refl.
  now apply cells_kept_insert with (ps0 := ps).
Qed.

Lemma cells_kept_alloc h o : cells_kept h (snd (alloc h o)).
Proof. intros l p ps H. exists ps. simpl. now apply lookup_app_l_Some. Qed.

Lemma for_each_kept {K} (keys : list K) body :
  (forall k h h', body k h = Ok tt h' -> cells_kept h h') ->
  forall h h', for_each keys body h = Ok tt h' -> cells_kept h h'.
Proof.
  intros Hb. induction keys as [|k ks IH]; intros h h' H; simpl in H.
  - inversion H. apply cells_kept_refl.
  - destruct (body k h) as [[] h1| |] eqn:E; simpl in H; try discriminate.
    eapply cells_kept_trans; eauto.
Qed.

Section MergeStep.

(** The loop body of [deep_merge], for a recursive call that returns its
    target and keeps the cells. *)
Variable rec : value -> value -> Z -> heap -> outcome value.
Hypothesis Hrec : merge_like rec.

Lemma deep_merge_key_kept target source deep key h h' :
  deep_merge_key rec target source deep key h = Ok tt h' -> cells_kept h h'.
Proof.
  unfold deep_merge_key.
  destruct (has_own h source key); [|intros H; inversion H; apply cells_kept_refl].
  destruct (type_check h (get_prop h source key) "object"
            && negb (isArray h (get_prop h source key))).
  - destruct (truthy (get_prop h target key)).
    + destruct (rec _ _ _ h) as [r h2| |] eqn:E; simpl; intros H; inversion H.
      apply Hrec in E as [_ E].
      eapply cells_kept_trans; [exact E | apply cells_kept_set_prop].
    + unfold alloc.
      destruct (rec _ _ _ (h ++ _)%list) as [r h2| |] eqn:E; simpl;
        intros H; inversion H.
      apply Hrec in E as [_ E].
      eapply cells_kept_trans; [apply (cells_kept_alloc h (OObject ProtoObject []))|].
      eapply cells_kept_trans; [exact E | apply cells_kept_set_prop].
  - intros H; inversion H. apply cells_kept_set_prop.
Qed.

End MergeStep.

Lemma deep_merge_merge_like fuel : merge_like (deep_merge fuel).
Proof.
  induction fuel as [|fuel IH]; intros t s d h r h' H; simpl in H;
    (destruct (depth_reached d);
     [inversion H; split; [reflexivity | apply cells_kept_refl]|]);
    (destruct (negb (type_check h t "object" && type_check h s "object"));
     [discriminate|]);
    match type of H with
    | bind (for_each ?ks ?body h) _ = _ =>
        destruct (for_each ks body h) as [[] h1| |] eqn:E; simpl in H;
        try discriminate; injection H as <- <-; split; [reflexivity|];
        apply (for_each_kept ks body); [|exact E]
    end;
    intros k h0 h0'; apply deep_merge_key_kept.
  - intros ? ? ? ? ? ? X. discriminate X.
  - exact IH.
Qed.

Lemma assoc_set_same k v ps : assoc k (assoc_set k v ps) = Some v.
Proof.
  induction ps as [|[k' v'] ps IH]; simpl.
  - now rewrite String.eqb_refl.
  - destruct (String.eqb k k') eqn:E; simpl; rewrite E; auto.
Qed.

Lemma get_set_prop_same (h : heap) l p ps k v :
  h !! l = Some (OObject p ps) ->
  get_prop (set_prop h (VRef l) k v) (VRef l) k = v.
Proof.
  intros H. unfold set_prop, get_prop. rewrite H.
  rewrite list_lookup_insert_eq by (eapply lookup_lt_Some; eauto).
  unfold props_get. now rewrite assoc_set_same.
Qed.

Lemma plain_value_type_check h o v :
  plain_value h v -> type_check (h ++ [o])%list v "object" = false.
Proof.
  destruct v; simpl; try reflexivity.
  intros [elems E]. unfold type_check. simpl.
  now rewrite (lookup_app_l_Some _ _ _ _ E).
Qed.

Lemma assoc_middle k v done rest :
  ~ In k (map fst done) -> assoc k (done ++ (k, v) :: rest)%list = Some v.
Proof.
  induction done as [|[k' v'] done IH]; simpl; intros Hk.
  - now rewrite String.eqb_refl.
  - destruct (String.eqb_spec k k') as [->|Hne]; [tauto|]. apply IH. tauto.
Qed.

Lemma assoc_set_new k v ps :
  ~ In k (map fst ps) -> assoc_set k v ps = (ps ++ [(k, v)])%list.
Proof.
  induction ps as [|[k' v'] ps IH]; simpl; intros Hk; [reflexivity|].
  destruct (String.eqb_spec k k') as [->|Hne]; [tauto|]. rewrite IH; tauto.
Qed.

Lemma set_prop_fresh (h : heap) p ps k v :
  set_prop (h ++ [OObject p ps])%list (VRef (List.length h)) k v
  = (h ++ [OObject p (assoc_set k v ps)])%list.
Proof.
  unfold set_prop. rewrite list_lookup_middle by reflexivity.
  rewrite insert_app_r_alt by reflexivity.
  now rewrite Nat.sub_diag.
Qed.

(** Merging a container whose values are all plain into a new, empty
    container fills it with exactly these properties; no recursive call is
    made. *)
Lemma fill_fresh rec (h : heap) lv pv vps d :
  h !! lv = Some (OObject pv vps) ->
  Forall (fun kv => plain_value h (snd kv)) vps ->
  NoDup (map fst vps) ->
  forall rest done, vps = (done ++ rest)%list ->
  for_each (map fst rest)
    (deep_merge_key rec (VRef (List.length h)) (VRef lv) d)
    (h ++ [OObject ProtoObject done])%list
  = Ok tt (h ++ [OObject ProtoObject vps])%list.
Proof.
  intros Hlv Hplain Hnd rest.
  induction rest as [|[k v] rest IH]; intros done Hvps; simpl.
  - now rewrite Hvps, app_nil_r.
  - assert (Hk : ~ In k (map fst done)).
    { rewrite Hvps, map_app in Hnd. apply NoDup_app in Hnd as (_ & Hd & _).
      intros Hin. apply (Hd k); [now apply list_elem_of_In|].
      simpl. left. }
    assert (Ha : assoc k vps = Some v) by (rewrite Hvps; now apply assoc_middle).
    assert (Hv : plain_value h v).
    { rewrite Forall_forall in Hplain. apply (Hplain (k, v)).
      rewrite Hvps. apply list_elem_of_In, in_or_app. right. now left. }
    unfold deep_merge_key at 1, has_own, own_props, get_prop.
    rewrite (lookup_app_l_Some _ _ _ _ Hlv). unfold props_get. rewrite Ha.
    rewrite (plain_value_type_check _ _ _ Hv). cbn [andb bind].
    rewrite set_prop_fresh, (assoc_set_new _ _ _ Hk).
    apply IH. rewrite Hvps, <- app_assoc. reflexivity.
Qed.

Lemma deep_merge_into_fresh fuel (h : heap) lv pv vps d :
  h !! lv = Some (OObject pv vps) ->
  Forall (fun kv => plain_value h (snd kv)) vps ->
  NoDup (map fst vps) ->
  depth_reached d = false ->
  deep_merge fuel (VRef (List.length h)) (VRef lv) d
    (h ++ [OObject ProtoObject []])%list
  = Ok (VRef (List.length h)) (h ++ [OObject ProtoObject vps])%list.
Proof.
  intros Hlv Hplain Hnd Hd.
  assert (Hchecks :
    type_check (h ++ [OObject ProtoObject []])%list (VRef (List.length h)) "object"
    && type_check (h ++ [OObject ProtoObject []])%list (VRef lv) "object" = true).
  { unfold type_check. simpl. rewrite list_lookup_middle by reflexivity.
    now rewrite (lookup_app_l_Some _ _ _ _ Hlv). }
  assert (Hkeys : own_keys (h ++ [OObject ProtoObject []])%list (VRef lv)
                  = map fst vps).
  { unfold own_keys, own_props. now rewrite (lookup_app_l_Some _ _ _ _ Hlv). }
  destruct fuel; simpl; rewrite Hd, Hchecks, Hkeys; simpl;
    now rewrite (fill_fresh _ h lv pv vps d Hlv Hplain Hnd vps []).
Qed.


(** C9: when [source[key]] is a keyed container (not an array) and the value
    read at [target[key]] is falsy, whichever falsy value it is, the merge of
    that key allocates an empty object, merges [source[key]] into it, and
    stores the merged object at [target[key]] in place of the old value.
    When the values of [source[key]] are all plain and the depth lets the
    nested merge in, the stored object holds exactly the properties of
    [source[key]].  The key [__proto__] is excluded, here and among the
    properties of [source[key]]: on an object that inherits from
    [Object.prototype] it names the accessor, not a slot. *)
Theorem deep_merge_key_falsy_slot fuel source deep key (h : heap) lt pt tps lv pv vps :
  key <> "__proto__" ->
  h !! lt = Some (OObject pt tps) ->
  has_own h source key = true ->
  get_prop h source key = VRef lv ->
  h !! lv = Some (OObject pv vps) ->
  truthy (get_prop h (VRef lt) key) = false ->
  let fresh := VRef (List.length h) in
  let h1 := (h ++ [OObject ProtoObject []])%list in
  deep_merge_key (deep_merge fuel) (VRef lt) source deep key h
    = bind (deep_merge fuel fresh (VRef lv) (depth_below deep) h1)
        (fun r h' => Ok tt (set_prop h' (VRef lt) key r)) /\
  (forall r h2,
      deep_merge fuel fresh (VRef lv) (depth_below deep) h1 = Ok r h2 ->
      r = fresh /\ get_prop (set_prop h2 (VRef lt) key r) (VRef lt) key = fresh) /\
  (depth_reached (depth_below deep) = false ->
   Forall (fun kv => plain_value h (snd kv)) vps ->
   NoDup (map fst vps) ->
   assoc "__proto__" vps = None ->
   deep_merge_key (deep_merge fuel) (VRef lt) source deep key h
     = Ok tt (set_prop (h ++ [OObject ProtoObject vps])%list (VRef lt) key fresh)) /\
  (depth_reached deep = false ->
   own_keys h source = [key] ->
   deep_merge (S fuel) (VRef lt) source deep h
     = bind (deep_merge fuel fresh (VRef lv) (depth_below deep) h1)
         (fun r h' => Ok (VRef lt) (set_prop h' (VRef lt) key r))).
Proof.
  intros _ Ht Hown Hsv Hv Hfalsy fresh h1.
  assert (Hsv' : get_prop h1 source key = VRef lv).
  { unfold has_own, own_props in Hown. unfold get_prop, h1 in *.
    destruct source; try discriminate.
    destruct (h !! l) as [[|p ps]|] eqn:E; try discriminate.
    now rewrite (lookup_app_l_Some _ _ _ _ E). }
  assert (Hstep :
    deep_merge_key (deep_merge fuel) (VRef lt) source deep key h
    = bind (deep_merge fuel fresh (VRef lv) (depth_below deep) h1)
        (fun r h' => Ok tt (set_prop h' (VRef lt) key r))).
  { unfold deep_merge_key. rewrite Hown, Hsv, Hfalsy.
    unfold type_check, isArray. simpl. rewrite Hv. simpl.
    fold h1. rewrite Hsv'. reflexivity. }
  split; [exact Hstep|]. split; [|split].
  - intros r h2 Hrec.
    destruct (deep_merge_merge_like fuel _ _ _ _ _ _ Hrec) as [-> Hkept].
    split; [reflexivity|].
    destruct (Hkept lt pt tps) as [ps' Hlt].
    { now apply lookup_app_l_Some. }
    now apply get_set_prop_same with (p := pt) (ps := ps').
  - intros Hd Hplain Hnd _. rewrite Hstep. unfold fresh, h1.
    now rewrite (deep_merge_into_fresh fuel h lv pv vps _ Hv Hplain Hnd Hd).
  - intros Hd Hkeys.
    assert (Hsrc : type_check h source "object" = true).
    { unfold has_own, own_props in Hown. unfold type_check. simpl.
      destruct source; try discriminate.
      destruct (h !! l) as [[|p ps]|]; try discriminate. reflexivity. }
    assert (Htgt : type_check h (VRef lt) "object" = true).
    { unfold type_check. simpl. now rewrite Ht. }
    cbn [deep_merge]. rewrite Hd, Htgt, Hsrc, Hkeys. cbn [andb negb for_each].
    rewrite Hstep.
    destruct (deep_merge fuel fresh (VRef lv) (depth_below deep) h1); reflexivity.
Qed.

Lemma deep_merge_key_falsy_slot_witness :
  let h := heap_slot (VNum (Fin 0)) in
  deep_merge_key (deep_merge 1) (VRef 2) (VRef 3) (-1) "a" h
    = Ok tt (set_prop (h ++ [OObject ProtoObject [("b", VNum (Fin 1))]])%list
               (VRef 2) "a" (VRef 5)) /\
  deep_merge 2 (VRef 2) (VRef 3) (-1) h
    = bind (deep_merge 1 (VRef 5) (VRef 4) (-1) (h ++ [OObject ProtoObject []])%list)
        (fun r h' => Ok (VRef 2) (set_prop h' (VRef 2) "a" r)).
Proof.
  intros h.
  destruct (deep_merge_key_falsy_slot 1 (VRef 3) (-1) "a" h 2%nat ProtoObject
              [("a", VNum (Fin 0))] 4%nat ProtoObject [("b", VNum (Fin 1))])
    as (_ & _ & Hplain & Hone); try reflexivity; [discriminate|].
  split.
  - apply Hplain;
      [reflexivity | repeat constructor | apply NoDup_singleton | reflexivity].
  - apply Hone; reflexivity.
Defined.

(** The same slot holding each of the falsy values, and no value at all:
    after the merge it holds the new object with the merged content. *)
Lemma deep_merge_falsy_slots v :
  In v [VNum (Fin 0); VStr ""; VBool false; VNull; VUndefined; VNum NaN] ->
  exists h', deep_merge 1 (VRef 2) (VRef 3) (-1) (heap_slot v) = Ok (VRef 2) h' /\
             get_prop h' (VRef 2) "a" = VRef 5 /\
             own_props h' (VRef 5) = [("b", VNum (Fin 1))].
Proof.
  simpl. intros [<-|[<-|[<-|[<-|[<-|[<-|[]]]]]]];
    eexists; (split; [reflexivity | split; reflexivity]).
Qed.

Lemma deep_merge_missing_slot :
  exists h', deep_merge 1 (VRef 2) (VRef 3) (-1) heap_small_merge = Ok (VRef 2) h' /\
             get_prop h' (VRef 2) "a" = VNum (Fin 1).
Proof. eexists. split; reflexivity. Qed.

(** * Further properties of the code *)

(** ** Lookup by value, the predicate on primitives, [set_default], [normalize] *)

(** X1: [by_value] has three possible answers: the function [do_nothing] for a
    function, the shared container [object] for null and for every object
    and array alike ([typeof] never says "array"), and undefined for
    everything else. *)
Theorem by_value_cases v :
  by_value v = match v with
               | VFun _ => do_nothing
               | VNull | VRef _ => object
               | _ => VUndefined
               end.
Proof. destruct v; reflexivity. Qed.

(** No string, boolean or number other than [NaN] is a default, the empty
    string, zero and false included; a function is a default exactly when
    it is [do_nothing]. *)
Lemma is_default_primitive h v : is_primitive v = true -> is_default h v = false.
Proof. destruct v as [| | |[|z]| | |]; try discriminate; reflexivity. Qed.

Lemma is_default_function h f : is_default h (VFun f) = true <-> f = FNothing.
Proof.
  destruct f; unfold is_default; simpl; split; intros H;
    try discriminate; reflexivity.
Qed.

(** X2: [set_default] hands a string, a boolean or a number other than [NaN]
    back unchanged, whatever the fallback; it gives the fallback for an
    absence-marker. *)
Theorem set_default_primitive h v w d :
  is_primitive v = true -> is_null w = true ->
  set_default h v d = v /\ set_default h w d = d.
Proof.
  intros Hv Hw. split; unfold set_default.
  - now rewrite (is_default_primitive h v Hv).
  - unfold is_default. now rewrite Hw.
Qed.

Lemma set_default_primitive_witness :
  set_default init_heap (VStr "") (VStr "fallback") = VStr "" /\
  set_default init_heap (VNum NaN) (VStr "fallback") = VStr "fallback".
Proof.
  apply (set_default_primitive init_heap (VStr "") (VNum NaN) (VStr "fallback"));
    reflexivity.
Defined.

(** X3: [set_default] keeps every function but [do_nothing], for which it gives
    the fallback. *)
Theorem set_default_function h f d :
  set_default h (VFun f) d = if func_eqb f FNothing then d else VFun f.
Proof. destruct f; reflexivity. Qed.

(** X4: [normalize] is idempotent, and its result is undefined or is not an
    absence-marker: it never returns null or [NaN]. *)
Theorem normalize_idempotent v :
  normalize (normalize v) = normalize v /\
  (normalize v = VUndefined \/ is_null (normalize v) = false).
Proof.
  unfold normalize. destruct (is_null v) eqn:E.
  - split; [reflexivity | now left].
  - rewrite E. split; [reflexivity | now right].
Qed.

(** ** The depth bounds the recursion *)

Lemma finished_bind {A B} (m : outcome A) (k : A -> heap -> outcome B) :
  finished m -> (forall a h, finished (k a h)) -> finished (bind m k).
Proof. destruct m; simpl; auto. Qed.

Lemma for_each_finished {K} (keys : list K) body :
  (forall k h, finished (body k h)) -> forall h, finished (for_each keys body h).
Proof.
  intros Hb. induction keys as [|k ks IH]; intros h; simpl; [exact I|].
  apply finished_bind; auto.
Qed.

Lemma depth_below_nonneg deep :
  depth_reached deep = false -> (0 <= deep)%Z ->
  (0 <= depth_below deep /\ depth_below deep = deep - 1)%Z.
Proof.
  unfold depth_reached, depth_below. intros Hd H0.
  destruct (Z.eqb_spec deep (-1)); lia.
Qed.

Lemma purification_finished fuel :
  forall source deep h,
    (0 <= deep <= Z.of_nat fuel)%Z -> finished (purification fuel source deep h).
Proof.
  induction fuel as [|fuel IH]; intros source deep h Hd; simpl;
    (destruct (depth_reached deep) eqn:E; [exact I|]);
    (destruct (negb (type_check h source "object")); [exact I|]);
    destruct (depth_below_nonneg deep E) as [Hb Hb']; try lia.
  apply finished_bind; [|intros; exact I].
  apply for_each_finished. intros k h0. unfold purification_key.
  destruct (has_own h0 source k); [|exact I].
  destruct (is_default h0 (get_prop h0 source k)); [exact I|].
  destruct (type_check h0 (get_prop h0 source k) "object"); [|exact I].
  apply finished_bind; [apply IH; lia | intros; exact I].
Qed.

Lemma deep_merge_finished fuel :
  forall target source deep h,
    (0 <= deep <= Z.of_nat fuel)%Z -> finished (deep_merge fuel target source deep h).
Proof.
  induction fuel as [|fuel IH]; intros target source deep h Hd; simpl;
    (destruct (depth_reached deep) eqn:E; [exact I|]);
    (destruct (negb (type_check h target "object" && type_check h source "object"));
     [exact I|]);
    destruct (depth_below_nonneg deep E) as [Hb Hb']; try lia.
  apply finished_bind; [|intros; exact I].
  apply for_each_finished. intros k h0. unfold deep_merge_key.
  destruct (has_own h0 source k); [|exact I].
  destruct (type_check h0 (get_prop h0 source k) "object"
            && negb (isArray h0 (get_prop h0 source k))); [|exact I].
  destruct (truthy (get_prop h0 target k)); unfold alloc;
    (apply finished_bind; [apply IH; lia | intros; exact I]).
Qed.

Lemma cut_default_finished fuel :
  forall source deep h,
    (0 <= deep <= Z.of_nat fuel)%Z -> finished (cut_default fuel source deep h).
Proof.
  induction fuel as [|fuel IH]; intros source deep h Hd; simpl;
    (destruct (negb (type_check h source "object")); [exact I|]);
    (destruct (depth_reached deep) eqn:E; [exact I|]);
    destruct (depth_below_nonneg deep E) as [Hb Hb']; try lia.
  apply finished_bind; [|intros; exact I].
  apply for_each_finished. intros k h0. unfold cut_default_key.
  destruct (has_own h0 source k); [|exact I].
  destruct (is_default h0 (get_prop h0 source k)); [exact I|].
  destruct (type_check h0 (get_prop h0 source k) "object"); [|exact I].
  apply finished_bind; [apply IH; lia | intros; exact I].
Qed.

(** X5: a call at a depth [d >= 0] never nests its recursive calls deeper than
    [d], whatever the heap, cyclic object graphs included: fuel [d] is
    enough for it to end, in a result or in a TypeError.  [from_object] and
    [shallow_merge] do not recurse at all. *)
Theorem depth_bounds_recursion fuel c h :
  match call_depth c with
  | Some deep => (0 <= deep <= Z.of_nat fuel)%Z
  | None => True
  end ->
  finished (run fuel c h).
Proof.
  destruct c as [s ps|s d|t s|t s d|s d]; simpl; intros Hd.
  - unfold from_object. destruct (negb (type_check h s "object")); [exact I|].
    apply finished_bind; [|intros; exact I].
    apply for_each_finished. intros prop h0. unfold from_object_prop.
    destruct (negb (type_check h0 prop "string")); [exact I|].
    destruct prop; try exact I. destruct (has_own h0 s s0); exact I.
  - now apply purification_finished.
  - unfold shallow_merge.
    destruct (negb (type_check h t "object" && type_check h s "object")); [exact I|].
    apply finished_bind; [|intros; exact I].
    apply for_each_finished. intros k h0. unfold shallow_merge_key.
    destruct (has_own h0 s k); exact I.
  - now apply deep_merge_finished.
  - now apply cut_default_finished.
Qed.

Lemma depth_bounds_recursion_witness :
  finished (run 2 (Call_deep_merge (VRef 2) (VRef 2) 2) heap_cycle).
Proof.
  apply (depth_bounds_recursion 2 (Call_deep_merge (VRef 2) (VRef 2) 2) heap_cycle).
  simpl. lia.
Defined.

(** ** Copying properties: [shallow_merge] and [from_object] *)

Lemma assoc_set_other k k' v ps :
  k' <> k -> assoc k' (assoc_set k v ps) = assoc k' ps.
Proof.
  intros Hne. induction ps as [|[k0 v0] ps IH]; simpl.
  - destruct (String.eqb_spec k' k); [contradiction | reflexivity].
  - destruct (String.eqb_spec k k0) as [->|Hk]; simpl.
    + destruct (String.eqb_spec k' k0); [contradiction | reflexivity].
    + destruct (String.eqb k' k0); [reflexivity | exact IH].
Qed.

Lemma assoc_set_id k v ps : assoc k ps = Some v -> assoc_set k v ps = ps.
Proof.
  induction ps as [|[k0 v0] ps IH]; simpl; [discriminate|].
  destruct (String.eqb_spec k k0) as [->|Hk].
  - intros H. now inversion H.
  - intros H. now rewrite IH.
Qed.

Lemma assoc_keys k ps :
  existsb (String.eqb k) (map fst ps) = match assoc k ps with Some _ => true | None => false end.
Proof.
  induction ps as [|[k0 v0] ps IH]; simpl; [reflexivity|].
  destruct (String.eqb k k0); [reflexivity | exact IH].
Qed.

(** The loop that copies the keys [ks] that [source] owns into [target]:
    it ends normally, changes no cell but the target's, and afterwards the
    target has, under each of these keys, the value of the source. *)
Lemma copy_loop (h : heap) lt pt tps ls ps sps :
  h !! lt = Some (OObject pt tps) ->
  h !! ls = Some (OObject ps sps) ->
  forall ks, exists tps',
    for_each ks (shallow_merge_key (VRef lt) (VRef ls)) h
    = Ok tt (<[lt := OObject pt tps']> h) /\
    forall k, assoc k tps'
              = if existsb (String.eqb k) ks
                then match assoc k sps with Some v => Some v | None => assoc k tps end
                else assoc k tps.
Proof.
  intros Ht Hs ks.
  assert (Hlt : lt < List.length h) by (eapply lookup_lt_Some; eauto).
  destruct (decide (lt = ls)) as [->|Hne].
  - (* merging an object into itself writes back what is there *)
    rewrite Ht in Hs. inversion Hs; subst ps sps. clear Hs.
    exists tps. split.
    + rewrite list_insert_id by exact Ht.
      induction ks as [|k ks IH]; simpl; [reflexivity|].
      unfold shallow_merge_key at 1, has_own, own_props, get_prop, set_prop.
      rewrite Ht. unfold props_get.
      destruct (assoc k tps) as [v|] eqn:E; simpl; [|exact IH].
      rewrite (assoc_set_id _ _ _ E). rewrite list_insert_id by exact Ht. exact IH.
    + intros k. destruct (existsb (String.eqb k) ks); [|reflexivity].
      now destruct (assoc k tps).
  - revert tps h Ht Hs Hlt. induction ks as [|k ks IH]; intros tps h Ht Hs Hlt.
    + exists tps. simpl. split; [now rewrite list_insert_id by exact Ht | reflexivity].
    + simpl. unfold shallow_merge_key at 1, has_own, own_props, get_prop, set_prop.
      rewrite Hs, Ht. unfold props_get.
      destruct (assoc k sps) as [v|] eqn:E; simpl.
      * destruct (IH (assoc_set k v tps) (<[lt := OObject pt (assoc_set k v tps)]> h))
          as [tps' [Hrun Hget]].
        { now apply list_lookup_insert_eq. }
        { now rewrite list_lookup_insert_ne. }
        { now rewrite length_insert. }
        exists tps'. split.
        { rewrite Hrun. now rewrite list_insert_insert_eq. }
        intros k'. rewrite Hget.
        destruct (String.eqb_spec k' k) as [->|Hk]; simpl.
        { rewrite E, assoc_set_same. now destruct (existsb (String.eqb k) ks). }
        { now rewrite (assoc_set_other _ _ _ _ Hk). }
      * destruct (IH tps h Ht Hs Hlt) as [tps' [Hrun Hget]].
        exists tps'. split; [exact Hrun|].
        intros k'. rewrite Hget.
        destruct (String.eqb_spec k' k) as [->|Hk]; simpl; [|reflexivity].
        rewrite E. now destruct (existsb (String.eqb k) ks).
Qed.

(** X6: [shallow_merge] of one keyed container into another (or into itself),
    when the source owns no property named [__proto__], returns the target
    and changes no other cell; afterwards every key of the source has the
    source's value in the target, and every other key of the target has the
    value it had. *)
Theorem shallow_merge_result (h : heap) lt pt tps ls ps sps :
  h !! lt = Some (OObject pt tps) ->
  h !! ls = Some (OObject ps sps) ->
  assoc "__proto__" sps = None ->
  exists tps',
    shallow_merge (VRef lt) (VRef ls) h = Ok (VRef lt) (<[lt := OObject pt tps']> h) /\
    forall k, assoc k tps'
              = match assoc k sps with Some v => Some v | None => assoc k tps end.
Proof.
  intros Ht Hs _.
  destruct (copy_loop h lt pt tps ls ps sps Ht Hs (map fst sps)) as [tps' [Hrun Hget]].
  exists tps'. split.
  - unfold shallow_merge, type_check. simpl. rewrite Ht, Hs. simpl.
    unfold own_keys, own_props. rewrite Hs, Hrun. reflexivity.
  - intros k. rewrite Hget, assoc_keys. now destruct (assoc k sps).
Qed.

Lemma shallow_merge_result_witness :
  exists tps',
    shallow_merge (VRef 2) (VRef 3) heap_merge_clash
    = Ok (VRef 2) (<[2%nat := OObject ProtoObject tps']> heap_merge_clash) /\
    forall k, assoc k tps'
              = match assoc k [("z", VNum (Fin 1)); ("a", VRef 4)] with
                | Some v => Some v
                | None => assoc k [("a", VStr "s")]
                end.
Proof.
  apply (shallow_merge_result heap_merge_clash 2%nat ProtoObject [("a", VStr "s")]
           3%nat ProtoObject [("z", VNum (Fin 1)); ("a", VRef 4)]); reflexivity.
Defined.

Lemma from_object_loop_strings source result ks h :
  for_each (map VStr ks) (from_object_prop source result) h
  = for_each ks (shallow_merge_key result source) h.
Proof.
  revert h. induction ks as [|k ks IH]; intros h; simpl; [reflexivity|].
  unfold from_object_prop at 1, shallow_merge_key at 1. simpl.
  destruct (has_own h source k); simpl; apply IH.
Qed.

(** X7: [from_object] with string property names adds to the shared container
    [object] the requested properties that the source owns, and keeps
    whatever that container held before: a requested key the source lacks
    is skipped, and no other cell changes. *)
Theorem from_object_result (h : heap) p0 ops ls ps sps ks :
  h !! loc_object = Some (OObject p0 ops) ->
  h !! ls = Some (OObject ps sps) ->
  exists ops',
    from_object (VRef ls) (map VStr ks) h
    = Ok object (<[loc_object := OObject p0 ops']> h) /\
    forall k, assoc k ops'
              = if existsb (String.eqb k) ks
                then match assoc k sps with Some v => Some v | None => assoc k ops end
                else assoc k ops.
Proof.
  intros Ho Hs.
  destruct (copy_loop h loc_object p0 ops ls ps sps Ho Hs ks) as [ops' [Hrun Hget]].
  exists ops'. split; [|exact Hget].
  unfold from_object, type_check. simpl. rewrite Hs. simpl.
  rewrite from_object_loop_strings.
  change object with (VRef loc_object). rewrite Hrun. reflexivity.
Qed.

Lemma from_object_result_witness :
  exists ops',
    from_object (VRef 2) (map VStr ["c"; "zz"]) heap_spec_example
    = Ok object (<[loc_object := OObject ProtoNull ops']> heap_spec_example) /\
    forall k, assoc k ops'
              = if existsb (String.eqb k) ["c"; "zz"]
                then match assoc k [("a", VStr ""); ("b", VNull); ("c", VNum (Fin 42));
                                    ("nested", VRef 3)] with
                     | Some v => Some v
                     | None => assoc k []
                     end
                else assoc k [].
Proof.
  apply (from_object_result heap_spec_example ProtoNull [] 2%nat ProtoObject
           [("a", VStr ""); ("b", VNull); ("c", VNum (Fin 42)); ("nested", VRef 3)]
           ["c"; "zz"]); reflexivity.
Defined.

(** X8: a property name that is not a string makes [from_object] raise a
    TypeError whose message names the [typeof] of that argument; the
    string names before it have been processed by then, the ones after it
    are never looked at. *)
Theorem from_object_bad_name source ks bad rest h h1 :
  type_check h source "object" = true ->
  String.eqb (typeof bad) "string" = false ->
  for_each ks (shallow_merge_key object source) h = Ok tt h1 ->
  from_object source (map VStr ks ++ bad :: rest)%list h
  = Throw (TypeError ("Property name must be a string, but got " ++ typeof bad)) h1.
Proof.
  intros Hs Hbad Hrun. unfold from_object. rewrite Hs. simpl.
  rewrite <- from_object_loop_strings in Hrun.
  assert (Hloop : forall props h0 h0',
    for_each props (from_object_prop source object) h0 = Ok tt h0' ->
    for_each (props ++ bad :: rest)%list (from_object_prop source object) h0
    = Throw (TypeError ("Property name must be a string, but got " ++ typeof bad)) h0').
  { induction props as [|q props IH]; intros h0 h0' H; simpl in *.
    - inversion H; subst. unfold from_object_prop, type_check.
      destruct (String.eqb_spec "string" "object") as [X|_]; [discriminate X|].
      rewrite Hbad. reflexivity.
    - destruct (from_object_prop source object q h0) as [[] h2| |]; simpl in *;
        try discriminate. now apply IH. }
  now rewrite (Hloop _ _ _ Hrun).
Qed.

Lemma from_object_bad_name_witness :
  from_object (VRef 2) (map VStr ["c"] ++ [VNum (Fin 5); VStr "a"])%list heap_spec_example
  = Throw (TypeError "Property name must be a string, but got number")
      (<[loc_object := OObject ProtoNull [("c", VNum (Fin 42))]]> heap_spec_example).
Proof.
  apply (from_object_bad_name (VRef 2) ["c"] (VNum (Fin 5)) [VStr "a"]
           heap_spec_example); reflexivity.
Defined.

(** ** [deep_merge] without nested containers *)

Lemma for_each_agree {K} (I : heap -> Prop) (keys : list K) b1 b2 :
  (forall k h, I h -> b1 k h = b2 k h) ->
  (forall k h h', I h -> b2 k h = Ok tt h' -> I h') ->
  forall h, I h -> for_each keys b1 h = for_each keys b2 h.
Proof.
  intros Hagree Hkeep. induction keys as [|k ks IH]; intros h Hh; simpl;
    [reflexivity|].
  rewrite (Hagree k h Hh).
  destruct (b2 k h) as [[] h1| |] eqn:E; simpl; try reflexivity.
  apply IH. eapply Hkeep; eauto.
Qed.

Lemma type_check_set_prop h target k v x ty :
  type_check (set_prop h target k v) x ty = type_check h x ty.
Proof.
  unfold type_check. destruct (String.eqb ty "object"); [|reflexivity].
  destruct x; try reflexivity.
  unfold set_prop. destruct target; try reflexivity.
  destruct (h !! l0) as [[|p ps]|] eqn:E; try reflexivity.
  destruct (decide (l = l0)) as [->|Hne].
  - rewrite list_lookup_insert_eq by (eapply lookup_lt_Some; eauto).
    now rewrite E.
  - now rewrite list_lookup_insert_ne by auto.
Qed.

Lemma isArray_set_prop h target k v x :
  isArray (set_prop h target k v) x = isArray h x.
Proof.
  unfold isArray. destruct x; try reflexivity.
  unfold set_prop. destruct target; try reflexivity.
  destruct (h !! l0) as [[|p ps]|] eqn:E; try reflexivity.
  destruct (decide (l = l0)) as [->|Hne].
  - rewrite list_lookup_insert_eq by (eapply lookup_lt_Some; eauto).
    now rewrite E.
  - now rewrite list_lookup_insert_ne by auto.
Qed.

Lemma has_own_get h source k :
  has_own h source k = true ->
  exists v, assoc k (own_props h source) = Some v /\ get_prop h source k = v.
Proof.
  unfold has_own, own_props, get_prop. destruct source; try discriminate.
  destruct (h !! l) as [[|p ps]|]; try discriminate.
  unfold props_get. destruct (assoc k ps) as [v|]; [eauto | discriminate].
Qed.

Lemma assoc_In k v ps : assoc k ps = Some v -> In (k, v) ps.
Proof.
  induction ps as [|[k0 v0] ps IH]; simpl; [discriminate|].
  destruct (String.eqb_spec k k0) as [->|Hne]; intros H.
  - inversion H. now left.
  - right. auto.
Qed.

Lemma own_props_copy h target source k :
  has_own h source k = true ->
  own_props (set_prop h target k (get_prop h source k)) source = own_props h source.
Proof.
  intros Hown. destruct (has_own_get _ _ _ Hown) as [v [Ha Hg]]. rewrite Hg.
  unfold own_props in *. destruct source; try reflexivity.
  unfold set_prop. destruct target; try reflexivity.
  destruct (h !! l0) as [[|p0 ps0]|] eqn:E0; try reflexivity.
  destruct (decide (l = l0)) as [->|Hne].
  - rewrite list_lookup_insert_eq by (eapply lookup_lt_Some; eauto).
    rewrite E0 in *. now apply assoc_set_id.
  - now rewrite list_lookup_insert_ne by auto.
Qed.

(** X9: when no own property of the source holds a keyed container that is not
    an array, [deep_merge] at a depth that lets it in is [shallow_merge]:
    the same result, the same heap, the same TypeError.  In particular an
    array of the source replaces whatever the target had under that key. *)
Theorem deep_merge_flat_is_shallow fuel target source deep h :
  depth_reached deep = false ->
  merge_flat h source ->
  deep_merge fuel target source deep h = shallow_merge target source h.
Proof.
  intros Hd Hflat.
  set (sps := own_props h source) in *.
  set (I := fun h' : heap =>
              own_props h' source = sps /\
              Forall (fun kv => type_check h' (snd kv) "object"
                                && negb (isArray h' (snd kv)) = false) sps).
  assert (Hloop : forall rec,
    for_each (own_keys h source) (deep_merge_key rec target source deep) h
    = for_each (own_keys h source) (shallow_merge_key target source) h).
  { intros rec. apply (for_each_agree I).
    - intros k h0 [Hp Hf]. unfold deep_merge_key, shallow_merge_key.
      destruct (has_own h0 source k) eqn:Hown; [|reflexivity].
      destruct (has_own_get _ _ _ Hown) as [v [Ha Hg]].
      rewrite Hp in Ha. apply assoc_In in Ha.
      rewrite Forall_forall in Hf. apply list_elem_of_In in Ha.
      specialize (Hf _ Ha). simpl in Hf. rewrite Hg, Hf. reflexivity.
    - intros k h0 h0' [Hp Hf]. unfold shallow_merge_key.
      destruct (has_own h0 source k) eqn:Hown; intros H; inversion H; subst;
        [|now split].
      split.
      + now rewrite own_props_copy.
      + eapply Forall_impl; [exact Hf|]. intros kv Hkv. simpl in *.
        now rewrite type_check_set_prop, isArray_set_prop.
    - split; [reflexivity | exact Hflat]. }
  unfold shallow_merge.
  destruct fuel; simpl; rewrite Hd;
    (destruct (negb (type_check h target "object" && type_check h source "object"));
     [reflexivity|]);
    now rewrite Hloop.
Qed.

Lemma deep_merge_flat_is_shallow_witness :
  deep_merge 0 (VRef 2) (VRef 4) (-1) heap_arrays
  = shallow_merge (VRef 2) (VRef 4) heap_arrays.
Proof.
  apply (deep_merge_flat_is_shallow 0 (VRef 2) (VRef 4) (-1) heap_arrays).
  - reflexivity.
  - unfold merge_flat. simpl. repeat constructor.
Defined.

(** ** What [cut_default] and [purification] leave alone *)

Lemma for_each_rel {K} (R : heap -> heap -> Prop) (keys : list K) body :
  (forall h, R h h) ->
  (forall h1 h2 h3, R h1 h2 -> R h2 h3 -> R h1 h3) ->
  (forall k h h', body k h = Ok tt h' -> R h h') ->
  forall h h', for_each keys body h = Ok tt h' -> R h h'.
Proof.
  intros Hrefl Htrans Hb. induction keys as [|k ks IH]; intros h h' H; simpl in H.
  - inversion H. apply Hrefl.
  - destruct (body k h) as [[] h1| |] eqn:E; simpl in H; try discriminate.
    eapply Htrans; eauto.
Qed.








Lemma only_object_written_refl h : only_object_written h h.
Proof. split; reflexivity. Qed.

Lemma only_object_written_trans h1 h2 h3 :
  only_object_written h1 h2 -> only_object_written h2 h3 ->
  only_object_written h1 h3.
Proof.
  intros [L12 H12] [L23 H23]. split; [congruence|].
  intros l Hl. rewrite (H23 l Hl). auto.
Qed.

Lemma only_object_written_set h k v :
  only_object_written h (set_prop h object k v).
Proof.
  split; [apply set_prop_length|].
  intros l Hl. change object with (VRef loc_object). unfold set_prop.
  destruct (h !! loc_object) as [[|p ps]|]; try reflexivity.
  now rewrite list_lookup_insert_ne by auto.
Qed.

Lemma purification_writes_object fuel :
  forall source deep h r h',
    purification fuel source deep h = Ok r h' ->
    r = (if depth_reached deep then source else object) /\
    only_object_written h h'.
Proof.
  induction fuel as [|fuel IH]; intros source deep h r h' H; simpl in H;
    (destruct (depth_reached deep);
     [inversion H; split; [reflexivity | apply only_object_written_refl]|]);
    (destruct (negb (type_check h source "object")); [discriminate|]);
    match type of H with
    | bind (for_each ?ks ?body h) _ = _ =>
        destruct (for_each ks body h) as [[] h1| |] eqn:E; simpl in H;
        try discriminate; injection H as <- <-; split; [reflexivity|];
        apply (for_each_rel only_object_written ks body
                 only_object_written_refl only_object_written_trans);
        [|exact E]
    end;
    intros k h0 h0'; unfold purification_key;
    (destruct (has_own h0 source k);
     [|intros X; inversion X; apply only_object_written_refl]);
    (destruct (is_default h0 (get_prop h0 source k));
     [intros X; inversion X; apply only_object_written_refl|]);
    (destruct (type_check h0 (get_prop h0 source k) "object");
     [|intros X; inversion X; apply only_object_written_set]).
  - discriminate.
  - destruct (purification fuel _ _ h0) as [r2 h2| |] eqn:E2; simpl;
      intros X; inversion X; subst.
    apply IH in E2 as [_ E2].
    eapply only_object_written_trans; [exact E2 | apply only_object_written_set].
Qed.

(** X13: [purification] allocates nothing and writes to one cell only, the shared
    container [object]: every other cell, the source included when it is
    another cell, is as it was.  What it returns is its argument when the
    depth stops it at once, and [object] otherwise. *)
Theorem purification_footprint fuel source deep h r h' l :
  purification fuel source deep h = Ok r h' ->
  l <> loc_object ->
  r = (if depth_reached deep then source else object) /\
  List.length h' = List.length h /\
  h' !! l = h !! l.
Proof.
  intros Hrun Hl.
  destruct (purification_writes_object _ _ _ _ _ _ Hrun) as [Hr [Hlen Hcells]].
  auto.
Qed.

Lemma purification_footprint_witness :
  VRef loc_object = (if depth_reached (-1) then VRef 2 else object) /\
  List.length (<[loc_object :=
                   OObject ProtoNull
                     [("c", VNum (Fin 42)); ("e", VNum (Fin 5));
                      ("nested", VRef loc_object)]]> heap_nested_only)
  = List.length heap_nested_only /\
  (<[loc_object :=
       OObject ProtoNull
         [("c", VNum (Fin 42)); ("e", VNum (Fin 5)); ("nested", VRef loc_object)]]>
     heap_nested_only) !! 2%nat = heap_nested_only !! 2%nat.
Proof.
  apply (purification_footprint 1 (VRef 2) (-1) heap_nested_only); [reflexivity|].
  discriminate.
Defined.

(** ** What [cut_default] and [purification] compute *)

Lemma type_check_insert (h : heap) (l : loc) p ps cur x ty :
  h !! l = Some (OObject p ps) ->
  type_check (<[l := OObject p cur]> h) x ty = type_check h x ty.
Proof.
  intros H. unfold type_check. destruct (String.eqb ty "object"); [|reflexivity].
  destruct x; try reflexivity.
  destruct (decide (l0 = l)) as [->|Hne].
  - rewrite list_lookup_insert_eq by (eapply lookup_lt_Some; eauto).
    now rewrite H.
  - now rewrite list_lookup_insert_ne by auto.
Qed.

Lemma is_default_insert_ne (h : heap) (l : loc) o v :
  v <> VRef l -> is_default (<[l := o]> h) v = is_default h v.
Proof.
  intros Hv. unfold is_default, isArray, array_length, own_keys, own_props.
  destruct v; try reflexivity.
  rewrite list_lookup_insert_ne by congruence. reflexivity.
Qed.

Lemma is_default_insert (h : heap) (l : loc) p ps cur v :
  h !! l = Some (OObject p ps) -> ps <> [] -> cur <> [] ->
  is_default (<[l := OObject p cur]> h) v = is_default h v.
Proof.
  intros H Hps Hcur.
  assert (Hother : forall w, w <> VRef l ->
            is_default (<[l := OObject p cur]> h) w = is_default h w)
    by (intros w Hw; now apply is_default_insert_ne).
  destruct v; try (apply Hother; discriminate).
  destruct (decide (l0 = l)) as [->|Hne]; [|apply Hother; congruence].
  unfold is_default, isArray, array_length, own_keys, own_props. simpl.
  rewrite list_lookup_insert_eq by (eapply lookup_lt_Some; eauto).
  rewrite H. destruct ps, cur; try contradiction; reflexivity.
Qed.

Lemma assoc_del_notin k ps : ~ In k (map fst ps) -> assoc_del k ps = ps.
Proof.
  induction ps as [|[k0 v0] ps IH]; simpl; intros Hk; [reflexivity|].
  destruct (String.eqb_spec k k0) as [->|Hne]; [tauto|]. rewrite IH; tauto.
Qed.

Lemma assoc_del_middle k v a b :
  ~ In k (map fst a) -> ~ In k (map fst b) ->
  assoc_del k (a ++ (k, v) :: b)%list = (a ++ b)%list.
Proof.
  intros Ha Hb. induction a as [|[k0 v0] a IH]; simpl in *.
  - rewrite String.eqb_refl. now apply assoc_del_notin.
  - destruct (String.eqb_spec k k0) as [->|Hne]; [tauto|]. rewrite IH; tauto.
Qed.

Lemma filter_keys (f : string * value -> bool) k ps :
  In k (map fst (List.filter f ps)) -> In k (map fst ps).
Proof.
  induction ps as [|kv ps IH]; simpl; [tauto|].
  destruct (f kv); simpl; tauto.
Qed.

Lemma NoDup_keys_middle (done rest : list (string * value)) k v :
  NoDup (map fst (done ++ (k, v) :: rest)%list) ->
  ~ In k (map fst done) /\ ~ In k (map fst rest).
Proof.
  rewrite map_app. simpl. intros H.
  apply NoDup_app in H as (_ & Hd & Hr). apply NoDup_cons in Hr as [Hr _].
  split.
  - intros Hin. apply (Hd k); [now apply list_elem_of_In | left].
  - intros Hin. apply Hr. now apply list_elem_of_In.
Qed.

Lemma without_defaults_snoc h done k v :
  without_defaults h (done ++ [(k, v)])%list
  = (without_defaults h done ++ (if is_default h v then [] else [(k, v)]))%list.
Proof.
  unfold without_defaults. rewrite List.filter_app. simpl.
  now destruct (is_default h v).
Qed.

Lemma cut_default_at_zero fuel v hc :
  type_check hc v "object" = true -> cut_default fuel v 0 hc = Ok VUndefined hc.
Proof. intros H. destruct fuel; simpl; rewrite H; reflexivity. Qed.

Section CutLoop.

(** The loop of [cut_default] over an object whose nested calls, where it
    makes any, change nothing. *)
Variable rec : value -> Z -> heap -> outcome value.
Variable h : heap.
Variable l : loc.
Variable p : proto.
Variable ps : list (string * value).
Variable deep : Z.
Hypothesis Hl : h !! l = Some (OObject p ps).
Hypothesis Hnd : NoDup (map fst ps).
Hypothesis Hrec : forall v hc,
  In v (map snd ps) ->
  type_check h v "object" = true -> type_check hc v "object" = true ->
  rec v (depth_below deep) hc = Ok VUndefined hc.

Lemma cut_loop rest :
  forall done, ps = (done ++ rest)%list ->
  for_each (map fst rest) (cut_default_key rec (VRef l) deep)
    (<[l := OObject p (without_defaults h done ++ rest)]> h)
  = Ok tt (<[l := OObject p (without_defaults h ps)]> h).
Proof.
  assert (Hlt : l < List.length h) by (eapply lookup_lt_Some; eauto).
  induction rest as [|[k v] rest IH]; intros done Hps; simpl.
  - now rewrite Hps, !app_nil_r.
  - assert (Hps' : ps = ((done ++ [(k, v)]) ++ rest)%list)
      by (now rewrite <- app_assoc).
    specialize (IH _ Hps'). rewrite without_defaults_snoc in IH.
    rewrite Hps in Hnd. destruct (NoDup_keys_middle _ _ _ _ Hnd) as [Hkd Hkr].
    assert (Hkf : ~ In k (map fst (without_defaults h done)))
      by (intros X; apply Hkd; eapply filter_keys; exact X).
    unfold cut_default_key at 1, has_own, own_props, get_prop.
    rewrite list_lookup_insert_eq by exact Hlt.
    unfold props_get. rewrite (assoc_middle _ _ _ _ Hkf).
    rewrite (is_default_insert h l p ps _ v Hl)
      by (try (rewrite Hps); now destruct (without_defaults h done), done).
    destruct (is_default h v) eqn:Ed.
    + unfold delete_prop. rewrite list_lookup_insert_eq by exact Hlt.
      rewrite list_insert_insert_eq, (assoc_del_middle _ _ _ _ Hkf Hkr).
      cbn [bind]. now rewrite app_nil_r in IH.
    + rewrite <- app_assoc in IH. simpl in IH.
      rewrite (type_check_insert h l p ps _ v _ Hl).
      destruct (type_check h v "object") eqn:Et; [|exact IH].
      rewrite Hrec; [exact IH | | exact Et |].
      * rewrite Hps, map_app. apply in_or_app. right. now left.
      * now rewrite (type_check_insert h l p ps _ v _ Hl).
Qed.

End CutLoop.

(** X11: at depth 1, [cut_default] deletes exactly the top-level properties whose
    value is a default, keeps the others in their order, and changes nothing
    else: a nested container is left as it is, defaults included. *)
Theorem cut_default_depth_one fuel (h : heap) (l : loc) p ps :
  h !! l = Some (OObject p ps) ->
  NoDup (map fst ps) ->
  cut_default (S fuel) (VRef l) 1 h
  = Ok VUndefined (<[l := OObject p (without_defaults h ps)]> h).
Proof.
  intros Hl Hnd.
  assert (Hrun := cut_loop (cut_default fuel) h l p ps 1 Hl Hnd
                    (fun v hc _ _ Hv => cut_default_at_zero fuel v hc Hv)
                    ps [] eq_refl).
  cbn [without_defaults List.filter app] in Hrun.
  rewrite list_insert_id in Hrun by exact Hl.
  cbn [cut_default]. unfold type_check. simpl. rewrite Hl. simpl.
  unfold own_keys, own_props. rewrite Hl, Hrun. reflexivity.
Qed.

Lemma cut_default_depth_one_witness :
  cut_default 1 (VRef 2) 1 heap_depth_example
  = Ok VUndefined
      (<[2%nat := OObject ProtoObject [("nested", VRef 3)]]> heap_depth_example).
Proof.
  apply (cut_default_depth_one 0 heap_depth_example 2%nat ProtoObject
           [("a", VNull); ("nested", VRef 3)]); [reflexivity|].
  apply NoDup_ListNoDup. simpl.
  apply List.NoDup_cons; [simpl; intuition discriminate|].
  apply List.NoDup_cons; [simpl; tauto | apply List.NoDup_nil].
Defined.

Lemma flat_value (h : heap) (l : loc) p ps v :
  h !! l = Some (OObject p ps) -> flat h (VRef l) -> In v (map snd ps) ->
  type_check h v "object" = false.
Proof.
  unfold flat, own_props. intros Hl Hf Hv. rewrite Hl in Hf.
  apply in_map_iff in Hv as [[k v'] [<- Hin]].
  rewrite Forall_forall in Hf. apply (Hf (k, v')). now apply list_elem_of_In.
Qed.

(** X12: on an object none of whose values is a keyed container, [cut_default]
    at any depth that lets it in deletes exactly the properties whose value
    is a default and keeps the others in their order; it needs no fuel. *)
Theorem cut_default_flat fuel (h : heap) (l : loc) p ps deep :
  h !! l = Some (OObject p ps) ->
  NoDup (map fst ps) ->
  depth_reached deep = false ->
  flat h (VRef l) ->
  cut_default fuel (VRef l) deep h
  = Ok VUndefined (<[l := OObject p (without_defaults h ps)]> h).
Proof.
  intros Hl Hnd Hd Hflat.
  assert (Hrun : forall rec,
    for_each (map fst ps) (cut_default_key rec (VRef l) deep) h
    = Ok tt (<[l := OObject p (without_defaults h ps)]> h)).
  { intros rec.
    assert (Hrun := cut_loop rec h l p ps deep Hl Hnd).
    specialize (Hrun ltac:(intros v hc Hv Ht _;
                           rewrite (flat_value h l p ps v Hl Hflat Hv) in Ht;
                           discriminate) ps [] eq_refl).
    cbn [without_defaults List.filter app] in Hrun.
    now rewrite list_insert_id in Hrun by exact Hl. }
  destruct fuel; cbn [cut_default]; unfold type_check; simpl; rewrite Hl; simpl;
    rewrite Hd; unfold own_keys, own_props; rewrite Hl, Hrun; reflexivity.
Qed.

Lemma cut_default_flat_witness :
  cut_default 0 (VRef 3) (-1) heap_depth_example
  = Ok VUndefined (<[3%nat := OObject ProtoObject []]> heap_depth_example).
Proof.
  apply (cut_default_flat 0 heap_depth_example 3%nat ProtoObject [("b", VNull)] (-1));
    try reflexivity.
  - apply NoDup_singleton.
  - unfold flat. simpl. repeat constructor.
Defined.

(** ** [purification] of an object without nested containers *)

Section PurifyLoop.

Variable rec : value -> Z -> heap -> outcome value.
Variable h : heap.
Variable p0 : proto.
Variable ls : loc.
Variable ps : proto.
Variable sps : list (string * value).
Variable deep : Z.
Hypothesis Ho : h !! loc_object = Some (OObject p0 []).
Hypothesis Hs : h !! ls = Some (OObject ps sps).
Hypothesis Hne : ls <> loc_object.
Hypothesis Hnd : NoDup (map fst sps).
Hypothesis Hflat : flat h (VRef ls).

Lemma purify_loop rest :
  forall done, sps = (done ++ rest)%list ->
  for_each (map fst rest) (purification_key rec (VRef ls) object deep)
    (<[loc_object := OObject p0 (without_defaults h done)]> h)
  = Ok tt (<[loc_object := OObject p0 (without_defaults h sps)]> h).
Proof.
  assert (Hlt : loc_object < List.length h) by (eapply lookup_lt_Some; eauto).
  induction rest as [|[k v] rest IH]; intros done Hps; simpl.
  - now rewrite Hps, !app_nil_r.
  - assert (Hps' : sps = ((done ++ [(k, v)]) ++ rest)%list)
      by (now rewrite <- app_assoc).
    specialize (IH _ Hps'). rewrite without_defaults_snoc in IH.
    pose proof Hnd as Hnd'. rewrite Hps in Hnd'.
    destruct (NoDup_keys_middle _ _ _ _ Hnd') as [Hkd Hkr].
    assert (Hkf : ~ In k (map fst (without_defaults h done)))
      by (intros X; apply Hkd; eapply filter_keys; exact X).
    assert (Hv : type_check h v "object" = false).
    { apply (flat_value h ls ps sps v Hs Hflat).
      rewrite Hps, map_app. apply in_or_app. right. now left. }
    assert (Hvo : v <> VRef loc_object).
    { intros ->. unfold type_check in Hv. simpl in Hv. now rewrite Ho in Hv. }
    unfold purification_key at 1, has_own, own_props, get_prop.
    assert (Hs' : h !! (ls : nat) = Some (OObject ps sps)) by exact Hs.
    rewrite list_lookup_insert_ne by auto. rewrite Hs'.
    assert (Ha : assoc k sps = Some v) by (rewrite Hps; now apply assoc_middle).
    unfold props_get. rewrite Ha.
    rewrite (is_default_insert_ne h loc_object _ v Hvo).
    rewrite (type_check_insert h loc_object p0 [] _ v _ Ho), Hv.
    destruct (is_default h v) eqn:Ed.
    + cbn [bind]. now rewrite app_nil_r in IH.
    + cbn [bind]. change object with (VRef loc_object). unfold set_prop.
      rewrite list_lookup_insert_eq by exact Hlt.
      rewrite list_insert_insert_eq, (assoc_set_new _ _ _ Hkf). exact IH.
Qed.

End PurifyLoop.

(** X14: when the shared container [object] is still empty, the source is another
    object and none of its values is a keyed container, [purification] at a
    depth that lets it in leaves in [object], and returns, exactly the
    properties of the source whose value is not a default, in their order;
    the source is not changed. *)
Theorem purification_flat fuel (h : heap) p0 (ls : loc) ps sps deep :
  h !! loc_object = Some (OObject p0 []) ->
  h !! ls = Some (OObject ps sps) ->
  ls <> loc_object ->
  NoDup (map fst sps) ->
  flat h (VRef ls) ->
  depth_reached deep = false ->
  purification fuel (VRef ls) deep h
  = Ok object (<[loc_object := OObject p0 (without_defaults h sps)]> h).
Proof.
  intros Ho Hs Hne Hnd Hflat Hd.
  assert (Hrun : forall rec,
    for_each (map fst sps) (purification_key rec (VRef ls) object deep) h
    = Ok tt (<[loc_object := OObject p0 (without_defaults h sps)]> h)).
  { intros rec.
    assert (Hrun := purify_loop rec h p0 ls ps sps deep Ho Hs Hne Hnd Hflat
                      sps [] eq_refl).
    cbn [without_defaults List.filter] in Hrun.
    now rewrite list_insert_id in Hrun by exact Ho. }
  destruct fuel; cbn [purification]; rewrite Hd; unfold type_check; simpl;
    rewrite Hs; simpl; unfold own_keys, own_props; rewrite Hs, Hrun; reflexivity.
Qed.

Lemma purification_flat_witness :
  purification 0 (VRef 4) (-1) heap_arrays
  = Ok object (<[loc_object := OObject ProtoNull [("arr", VRef 5); ("n", VNum (Fin 0))]]>
                 heap_arrays).
Proof.
  apply (purification_flat 0 heap_arrays ProtoNull 4%nat ProtoObject
           [("arr", VRef 5); ("n", VNum (Fin 0))] (-1)); try reflexivity.
  - discriminate.
  - apply NoDup_ListNoDup. simpl.
    apply List.NoDup_cons; [simpl; intuition discriminate|].
    apply List.NoDup_cons; [simpl; tauto | apply List.NoDup_nil].
  - unfold flat. simpl. repeat constructor.
Defined.

(** ** What [deep_merge] returns *)

Lemma owns_no_proto_spec (h : heap) :
  owns_no_proto h = true <->
  forall (l : loc) p ps, h !! l = Some (OObject p ps) -> assoc "__proto__" ps = None.
Proof.
  unfold owns_no_proto. rewrite forallb_forall. split.
  - intros H l p ps Hl.
    assert (Hin : In (OObject p ps) h)
      by (apply list_elem_of_In, list_elem_of_lookup; eauto).
    specialize (H _ Hin). simpl in H. now destruct (assoc "__proto__" ps).
  - intros H o Hin. destruct o as [|p ps]; [reflexivity|].
    apply list_elem_of_In, list_elem_of_lookup in Hin as [l Hl].
    now rewrite (H l p ps Hl).
Qed.

Lemma for_each_inv {K} (I : heap -> Prop) (keys : list K) body :
  (forall k h h', I h -> body k h = Ok tt h' -> I h') ->
  forall h h', I h -> for_each keys body h = Ok tt h' -> I h'.
Proof.
  intros Hb. induction keys as [|k ks IH]; intros h h' Hh H; simpl in H.
  - now inversion H; subst.
  - destruct (body k h) as [[] h1| |] eqn:E; simpl in H; try discriminate.
    eapply IH; [|exact H]. eapply Hb; eauto.
Qed.

Lemma has_own_not_proto h source k :
  owns_no_proto h = true -> has_own h source k = true -> k <> "__proto__".
Proof.
  intros Hn Hown ->. rewrite owns_no_proto_spec in Hn.
  unfold has_own, own_props in Hown. destruct source; try discriminate.
  destruct (h !! l) as [[|p ps]|] eqn:E; try discriminate.
  now rewrite (Hn l p ps E) in Hown.
Qed.

Lemma owns_no_proto_set h target k v :
  k <> "__proto__" -> owns_no_proto h = true ->
  owns_no_proto (set_prop h target k v) = true.
Proof.
  intros Hk Hn. unfold set_prop. destruct target; try exact Hn.
  destruct (h !! l) as [[|p ps]|] eqn:E; try exact Hn.
  rewrite owns_no_proto_spec in *. intros l0 p0 ps0 H0.
  destruct (decide (l0 = l)) as [->|Hne].
  - rewrite list_lookup_insert_eq in H0 by (eapply lookup_lt_Some; eauto).
    inversion H0; subst. rewrite assoc_set_other by congruence. eauto.
  - rewrite list_lookup_insert_ne in H0 by auto. eauto.
Qed.

Lemma owns_no_proto_alloc h :
  owns_no_proto h = true -> owns_no_proto (h ++ [OObject ProtoObject []]) = true.
Proof.
  intros Hn. unfold owns_no_proto in *. rewrite forallb_app, Hn. reflexivity.
Qed.

Lemma deep_merge_owns_no_proto fuel :
  forall target source deep h r h',
    owns_no_proto h = true ->
    deep_merge fuel target source deep h = Ok r h' -> owns_no_proto h' = true.
Proof.
  induction fuel as [|fuel IH]; intros target source deep h r h' Hn H;
    simpl in H;
    (destruct (depth_reached deep); [now inversion H; subst|]);
    (destruct (negb (type_check h target "object" && type_check h source "object"));
     [discriminate|]);
    match type of H with
    | bind (for_each ?ks ?body h) _ = _ =>
        destruct (for_each ks body h) as [[] h1| |] eqn:E; simpl in H;
        try discriminate; injection H as <- <-;
        apply (for_each_inv (fun h0 => owns_no_proto h0 = true) ks body)
          with (h := h); [|exact Hn|exact E]
    end;
    intros k h0 h0' Hn0; unfold deep_merge_key;
    (destruct (has_own h0 source k) eqn:Hown; [|now intros X; inversion X; subst]);
    pose proof (has_own_not_proto _ _ _ Hn0 Hown) as Hk;
    (destruct (type_check h0 (get_prop h0 source k) "object"
               && negb (isArray h0 (get_prop h0 source k)));
     [|intros X; inversion X; subst; now apply owns_no_proto_set]);
    destruct (truthy (get_prop h0 target k)); unfold alloc.
  - discriminate.
  - discriminate.
  - destruct (deep_merge fuel _ _ _ h0) as [r2 h2| |] eqn:E2; simpl;
      intros X; inversion X; subst.
    apply owns_no_proto_set; [exact Hk|]. eapply IH; eauto.
  - destruct (deep_merge fuel _ _ _ (h0 ++ _)%list) as [r2 h2| |] eqn:E2; simpl;
      intros X; inversion X; subst.
    apply owns_no_proto_set; [exact Hk|].
    eapply IH; [|exact E2]. now apply owns_no_proto_alloc.
Qed.

(** X15: on a heap none of whose objects owns a property named [__proto__],
    when [deep_merge] returns, it returns the very reference it was given
    as target, every object cell of the heap is still an object with the
    prototype it had, and still no object owns a property named
    [__proto__]: the merge replaces property values and allocates new
    objects, it never removes or retypes a cell. *)
Theorem deep_merge_returns_target fuel target source deep (h : heap) r h' (l : loc) p ps :
  owns_no_proto h = true ->
  deep_merge fuel target source deep h = Ok r h' ->
  h !! l = Some (OObject p ps) ->
  r = target /\ (exists ps', h' !! l = Some (OObject p ps')) /\
  owns_no_proto h' = true.
Proof.
  intros Hn Hrun Hl.
  pose proof (deep_merge_owns_no_proto _ _ _ _ _ _ _ Hn Hrun) as Hn'.
  destruct (deep_merge_merge_like fuel _ _ _ _ _ _ Hrun) as [-> Hk].
  split; [reflexivity|]. split; [exact (Hk _ _ _ Hl) | exact Hn'].
Qed.

Lemma deep_merge_returns_target_witness :
  VRef 2 = VRef 2 /\
  (exists ps', (<[2%nat := OObject ProtoObject [("a", VNum (Fin 1))]]> heap_small_merge)
               !! 3%nat = Some (OObject ProtoObject ps')) /\
  owns_no_proto (<[2%nat := OObject ProtoObject [("a", VNum (Fin 1))]]> heap_small_merge)
  = true.
Proof.
  apply (deep_merge_returns_target 1 (VRef 2) (VRef 3) (-1) heap_small_merge
           (VRef 2) _ 3%nat ProtoObject [("a", VNum (Fin 1))]); reflexivity.
Defined.

(** X16: at depth 1 a nested container of the source (a keyed container that is
    not an array) is neither merged nor referenced: the nested call returns
    at once, so the target's slot is assigned the truthy value it already
    had, or a new empty object when it had none.  The key [__proto__] is
    excluded. *)
Theorem deep_merge_key_depth_one fuel target source key h :
  key <> "__proto__" ->
  has_own h source key = true ->
  type_check h (get_prop h source key) "object"
  && negb (isArray h (get_prop h source key)) = true ->
  deep_merge_key (deep_merge fuel) target source 1 key h
  = if truthy (get_prop h target key)
    then Ok tt (set_prop h target key (get_prop h target key))
    else Ok tt (set_prop (h ++ [OObject ProtoObject []])%list target key
                  (VRef (List.length h))).
Proof.
  intros _ Hown Hnested. unfold deep_merge_key. rewrite Hown, Hnested.
  destruct (truthy (get_prop h target key)); unfold alloc;
    change (depth_below 1) with 0%Z;
    now rewrite deep_merge_depth_reached by reflexivity.
Qed.

Lemma deep_merge_key_depth_one_witness :
  deep_merge_key (deep_merge 3) (VRef 3) (VRef 2) 1 "nested" heap_spec_example
  = Ok tt (set_prop (heap_spec_example ++ [OObject ProtoObject []])%list (VRef 3)
             "nested" (VRef 4)).
Proof.
  apply (deep_merge_key_depth_one 3 (VRef 3) (VRef 2) "nested" heap_spec_example);
    [discriminate | reflexivity | reflexivity].
Defined.

(** ** The depth budget of [deep_merge] *)


















